(** * reverse_ssh: the operator terminal and the user registry

    A shallow embedding of the terminal line editor
    (package [terminal]: key decoder, history ring, editor core, command
    dispatcher) and of the user and session registry (package [users]),
    with the properties of the specification stated over it.

    Conventions of the embedding:
    - a Go [int] is a [Z]; every quantity of the editor (lengths, cursor
      cells, indices) stays far below 2^63, so no wrap-around occurs;
      Go's [/] and [%] truncate and are [Z.quot] and [Z.rem];
    - a [byte] is a [Z] in [0, 256), a [rune] is a [Z], a [[]byte] or
      [[]rune] is a [list Z];
    - a Go [string] is a Rocq [string], that is a sequence of bytes;
    - a run-time panic (slice bounds, index out of range) is an explicit
      outcome of the functions that can raise one;
    - the mutex of the editor and the lock of the registry are not
      modelled: every operation is run to completion on its own. *)

From Stdlib Require Import ZArith Lia Bool Ascii String DecimalString.
From stdpp Require Import gmap strings list fin_maps.

Local Open Scope Z_scope.

(** ** Byte strings *)

Definition byte_of_ascii (a : ascii) : Z := Z.of_N (N_of_ascii a).
Definition ascii_of_byte (b : Z) : ascii := ascii_of_N (Z.to_N b).

(** [[]byte(s)] *)
Definition bytes_of_string (s : string) : list Z :=
  byte_of_ascii <$> list_ascii_of_string s.

(** [string(b)] for a byte slice [b] *)
Definition string_of_bytes (b : list Z) : string :=
  string_of_list_ascii (ascii_of_byte <$> b).

(** [len(x)] as a Go int *)
Definition len {A} (l : list A) : Z := Z.of_nat (length l).

(** [b[k:]]: panics ([None]) when [k] exceeds the length. *)
Definition slice_from {A} (b : list A) (k : nat) : option (list A) :=
  if decide (k ≤ length b)%nat then Some (drop k b) else None.

(** [b[i]] under a length test that already covers [i]. *)
Definition at_ (b : list Z) (i : nat) : Z := nth i b 0.

(** ** unicode/utf8 (Go standard library) *)

Module utf8.

Definition RuneError : Z := 65533. (* U+FFFD *)
Definition MaxRune : Z := 1114111. (* U+10FFFF *)

(** The table [first]: information about the first byte of an encoding.
    [0xF0] is ASCII, [0xF1] invalid, otherwise the low three bits are the
    size and the high four bits index [acceptRanges]. *)
Definition first (b : Z) : Z :=
  if b <? 128 then 240
  else if b <? 194 then 241
  else if b <=? 223 then 2
  else if b =? 224 then 19
  else if b <=? 236 then 3
  else if b =? 237 then 35
  else if b <=? 239 then 3
  else if b =? 240 then 52
  else if b <=? 243 then 4
  else if b =? 244 then 68
  else 241.

Definition acceptRanges (i : Z) : Z * Z :=
  if i =? 0 then (128, 191)
  else if i =? 1 then (160, 191)
  else if i =? 2 then (128, 159)
  else if i =? 3 then (144, 191)
  else if i =? 4 then (128, 143)
  else (0, 0).

Definition locb : Z := 128.
Definition hicb : Z := 191.

(** [utf8.FullRune(p)] *)
Definition FullRune (p : list Z) : bool :=
  match p with
  | [] => false
  | p0 :: _ =>
      let n := len p in
      let x := first p0 in
      if n >=? Z.land x 7 then true
      else
        let '(lo, hi) := acceptRanges (Z.shiftr x 4) in
        if (n >? 1) && ((at_ p 1 <? lo) || (hi <? at_ p 1)) then true
        else if (n >? 2) && ((at_ p 2 <? locb) || (hicb <? at_ p 2)) then true
        else false
  end.

(** [utf8.DecodeRune(p)]: the rune and the number of bytes it takes. *)
Definition DecodeRune (p : list Z) : Z * nat :=
  match p with
  | [] => (RuneError, 0%nat)
  | p0 :: _ =>
      let n := len p in
      let x := first p0 in
      if x >=? 240 then
        (if Z.testbit x 0 then RuneError else p0, 1%nat)
      else
        let sz := Z.land x 7 in
        let '(lo, hi) := acceptRanges (Z.shiftr x 4) in
        if n <? sz then (RuneError, 1%nat)
        else
          let b1 := at_ p 1 in
          if (b1 <? lo) || (hi <? b1) then (RuneError, 1%nat)
          else if sz <=? 2 then
            (Z.lor (Z.shiftl (Z.land p0 31) 6) (Z.land b1 63), 2%nat)
          else
            let b2 := at_ p 2 in
            if (b2 <? locb) || (hicb <? b2) then (RuneError, 1%nat)
            else if sz <=? 3 then
              (Z.lor (Z.lor (Z.shiftl (Z.land p0 15) 12)
                            (Z.shiftl (Z.land b1 63) 6))
                     (Z.land b2 63), 3%nat)
            else
              let b3 := at_ p 3 in
              if (b3 <? locb) || (hicb <? b3) then (RuneError, 1%nat)
              else
                (Z.lor (Z.lor (Z.lor (Z.shiftl (Z.land p0 7) 18)
                                     (Z.shiftl (Z.land b1 63) 12))
                              (Z.shiftl (Z.land b2 63) 6))
                       (Z.land b3 63), 4%nat)
  end.

(** The bytes [utf8.AppendRune] adds for [r]; a value that is no Unicode
    scalar is replaced by U+FFFD. *)
Definition EncodeRune (r : Z) : list Z :=
  if (0 <=? r) && (r <=? 127) then [r]
  else if (0 <=? r) && (r <=? 2047) then
    [Z.lor 192 (Z.shiftr r 6); Z.lor 128 (Z.land r 63)]
  else if (r <? 0) || (MaxRune <? r) || ((55296 <=? r) && (r <=? 57343)) then
    [239; 191; 189]
  else if r <=? 65535 then
    [Z.lor 224 (Z.shiftr r 12);
     Z.lor 128 (Z.land (Z.shiftr r 6) 63);
     Z.lor 128 (Z.land r 63)]
  else
    [Z.lor 240 (Z.shiftr r 18);
     Z.lor 128 (Z.land (Z.shiftr r 12) 63);
     Z.lor 128 (Z.land (Z.shiftr r 6) 63);
     Z.lor 128 (Z.land r 63)].

(** [[]byte(string(rs))] for a rune slice [rs] *)
Definition encode (rs : list Z) : list Z := concat (EncodeRune <$> rs).

(** [[]rune(string(b))]: runes are decoded one after the other; an
    invalid byte gives U+FFFD and is one byte wide. *)
Fixpoint decode_fuel (fuel : nat) (b : list Z) : list Z :=
  match fuel, b with
  | O, _ | _, [] => []
  | S fuel, _ =>
      let '(r, sz) := DecodeRune b in
      r :: decode_fuel fuel (drop (Nat.max 1 sz) b)
  end.

Definition decode (b : list Z) : list Z := decode_fuel (length b) b.

(** [utf8.RuneCount(b)] *)
Definition RuneCount (b : list Z) : Z := len (decode b).

End utf8.

(** [string(rs)] for a rune slice and [[]rune(s)] for a string. *)
Definition string_of_runes (rs : list Z) : string :=
  string_of_bytes (utf8.encode rs).
Definition runes_of_string (s : string) : list Z :=
  utf8.decode (bytes_of_string s).

(** ** The history ring ([stRingBuffer]) *)

(** [rb_entries] is the slice [entries]; the nil slice of the zero value is
    the empty list ([make] is the only other source of the field and gives
    100 elements). *)
Record stRingBuffer := mkRing {
  rb_entries : list string;
  rb_max : Z;
  rb_head : Z;
  rb_size : Z
}.

(** The zero value, as in a fresh [Terminal]. *)
Definition emptyRing : stRingBuffer :=
  {| rb_entries := []; rb_max := 0; rb_head := 0; rb_size := 0 |}.

Definition defaultNumEntries : Z := 100.

(** [(s *stRingBuffer) Add(a)]; [None] is a panic (division by zero or
    index out of range). *)
Definition Add (s : stRingBuffer) (a : string) : option stRingBuffer :=
  let s1 :=
    match rb_entries s with
    | [] => {| rb_entries := replicate (Z.to_nat defaultNumEntries) EmptyString;
               rb_max := defaultNumEntries;
               rb_head := rb_head s; rb_size := rb_size s |}
    | _ => s
    end in
  if rb_max s1 =? 0 then None
  else
    let h := Z.rem (rb_head s1 + 1) (rb_max s1) in
    if (0 <=? h) && (h <? len (rb_entries s1)) then
      Some {| rb_entries := <[Z.to_nat h := a]> (rb_entries s1);
              rb_max := rb_max s1;
              rb_head := h;
              rb_size := if rb_size s1 <? rb_max s1 then rb_size s1 + 1
                         else rb_size s1 |}
    else None.

(** [(s *stRingBuffer) NthPreviousEntry(n)]; [None] is a panic. *)
Definition NthPreviousEntry (s : stRingBuffer) (n : Z) : option (string * bool) :=
  if n >=? rb_size s then Some (EmptyString, false)
  else
    let index := rb_head s - n in
    let index := if index <? 0 then index + rb_max s else index in
    if 0 <=? index then
      match rb_entries s !! Z.to_nat index with
      | Some v => Some (v, true)
      | None => None
      end
    else None.

(** The ring after the calls [Add(a)] for [a] in [l], in order. *)
Definition AddAll (l : list string) : option stRingBuffer :=
  foldl (fun acc a => acc ≫= fun s => Add s a) (Some emptyRing) l.

(** ** Keys *)

Definition keyCtrlC : Z := 3.
Definition keyCtrlD : Z := 4.
Definition keyCtrlU : Z := 21.
Definition keyEnter : Z := 13.
Definition keyEscape : Z := 27.
Definition keyBackspace : Z := 127.
(** [0xd800 + iota], the seventh constant of the block *)
Definition keyUnknown : Z := 55296 + 6.
Definition keyUp : Z := 55296 + 7.
Definition keyDown : Z := 55296 + 8.
Definition keyLeft : Z := 55296 + 9.
Definition keyRight : Z := 55296 + 10.
Definition keyAltLeft : Z := 55296 + 11.
Definition keyAltRight : Z := 55296 + 12.
Definition keyHome : Z := 55296 + 13.
Definition keyDel : Z := 55296 + 14.
Definition keyEnd : Z := 55296 + 15.
Definition keyDeleteWord : Z := 55296 + 16.
Definition keyDeleteLine : Z := 55296 + 17.
Definition keyClearScreen : Z := 55296 + 18.
Definition keyPasteStart : Z := 55296 + 19.
Definition keyPasteEnd : Z := 55296 + 20.

Definition crlf : list Z := [13; 10].
Definition pasteStart : list Z := [keyEscape; 91; 50; 48; 48; 126].
Definition pasteEnd : list Z := [keyEscape; 91; 50; 48; 49; 126].

(** What a call of [bytesToKey] does: it returns a key and the rest of the
    input, or it panics on a slice expression out of range. *)
Inductive KeyResult :=
  | KeyOk (key : Z) (rest : list Z)
  | KeyPanic.

(** [return key, b[k:]] *)
Definition ret_from (key : Z) (b : list Z) (k : nat) : KeyResult :=
  match slice_from b k with
  | Some rest => KeyOk key rest
  | None => KeyPanic
  end.

(** The first [switch] of [bytesToKey]: control characters. *)
Definition controlKey (b0 : Z) : option Z :=
  if b0 =? 1 then Some keyHome
  else if b0 =? 2 then Some keyLeft
  else if b0 =? 5 then Some keyEnd
  else if b0 =? 6 then Some keyRight
  else if b0 =? 8 then Some keyBackspace
  else if b0 =? 11 then Some keyDeleteLine
  else if b0 =? 12 then Some keyClearScreen
  else if b0 =? 23 then Some keyDeleteWord
  else if b0 =? 14 then Some keyDown
  else if b0 =? 16 then Some keyUp
  else None.

(** The [switch b[2]] after [ESC '[']: the key and the slice start. *)
Definition csiKey (b2 : Z) : option (Z * nat) :=
  if b2 =? 65 then Some (keyUp, 3%nat)
  else if b2 =? 66 then Some (keyDown, 3%nat)
  else if b2 =? 67 then Some (keyRight, 3%nat)
  else if b2 =? 68 then Some (keyLeft, 3%nat)
  else if b2 =? 72 then Some (keyHome, 3%nat)
  else if b2 =? 70 then Some (keyEnd, 3%nat)
  else if b2 =? 51 then Some (keyDel, 4%nat)
  else None.

(** The [switch b[5]] after [ESC '[' '1' ';' '3']. *)
Definition altKey (b5 : Z) : option Z :=
  if b5 =? 67 then Some keyAltRight
  else if b5 =? 68 then Some keyAltLeft
  else None.

Definition isSeqEnd (c : Z) : bool :=
  ((97 <=? c) && (c <=? 122)) || ((65 <=? c) && (c <=? 90)) || (c =? 126).

(** The last loop of [bytesToKey]: the index of the first byte in
    [a-zA-Z~], if there is one. *)
Fixpoint findSeqEnd (b : list Z) (i : nat) : option nat :=
  match b with
  | [] => None
  | c :: b' => if isSeqEnd c then Some i else findSeqEnd b' (S i)
  end.

Definition list_eqb (a b : list Z) : bool := bool_decide (a = b).

Definition bytesToKey (b : list Z) (pasteActive : bool) : KeyResult :=
  match b with
  | [] => KeyOk utf8.RuneError []
  | b0 :: _ =>
      match (if pasteActive then None else controlKey b0) with
      | Some k => ret_from k b 1
      | None =>
          if negb (b0 =? keyEscape) then
            if negb (utf8.FullRune b) then KeyOk utf8.RuneError b
            else
              let '(r, l) := utf8.DecodeRune b in
              ret_from r b l
          else
            match (if negb pasteActive && (len b >=? 3)
                      && (at_ b 0 =? keyEscape) && (at_ b 1 =? 91)
                   then csiKey (at_ b 2) else None) with
            | Some (k, n) => ret_from k b n
            | None =>
                match (if negb pasteActive && (len b >=? 6)
                          && (at_ b 0 =? keyEscape) && (at_ b 1 =? 91)
                          && (at_ b 2 =? 49) && (at_ b 3 =? 59)
                          && (at_ b 4 =? 51)
                       then altKey (at_ b 5) else None) with
                | Some k => ret_from k b 6
                | None =>
                    if negb pasteActive && (len b >=? 6)
                       && list_eqb (take 6 b) pasteStart
                    then ret_from keyPasteStart b 6
                    else if pasteActive && (len b >=? 6)
                            && list_eqb (take 6 b) pasteEnd
                    then ret_from keyPasteEnd b 6
                    else
                      match findSeqEnd b 0 with
                      | Some i => ret_from keyUnknown b (S i)
                      | None => KeyOk utf8.RuneError b
                      end
                end
            end
      end
  end.

(** The key sequences the decoder recognises when no paste is active, and
    the key each one stands for. *)
Definition recognised : list (list Z * Z) :=
  [ ([keyEscape; 91; 65], keyUp); ([keyEscape; 91; 66], keyDown);
    ([keyEscape; 91; 67], keyRight); ([keyEscape; 91; 68], keyLeft);
    ([keyEscape; 91; 72], keyHome); ([keyEscape; 91; 70], keyEnd);
    ([keyEscape; 91; 51; 126], keyDel);
    ([keyEscape; 91; 49; 59; 51; 67], keyAltRight);
    ([keyEscape; 91; 49; 59; 51; 68], keyAltLeft);
    (pasteStart, keyPasteStart) ].

(** The proper, non-empty prefixes of a sequence. *)
Definition properPrefixes (s : list Z) : list (list Z) :=
  (fun n => take n s) <$> seq 1 (length s - 1).

(** The decoder asks for more input: the sentinel, with the buffer intact. *)
Definition needsMore (b : list Z) (pasteActive : bool) : bool :=
  match bytesToKey b pasteActive with
  | KeyOk k rest => (k =? utf8.RuneError) && list_eqb rest b
  | KeyPanic => false
  end.

(** ** The user and session registry (package [users]) *)

Definition UserPermissions : Z := 0.
Definition AdminPermissions : Z := 5.

(** Modelled from the spec: the prefix index (package [pkg/trie], not among
    the sources); insert-only, [Add] registers a string and [PrefixMatch]
    returns the registered strings that start with the query, in no
    particular order (here the order of [elements]). *)
Definition Trie := gset string.
Definition NewTrie : Trie := ∅.
Definition TrieAdd (t : Trie) (s : string) : Trie := {[ s ]} ∪ t.
Definition PrefixMatch (t : Trie) (p : string) : list string :=
  filter (fun s => String.prefix p s = true) (elements t).

(** What the registry reads of an [*ssh.ServerConn]: [User()],
    [RemoteAddr().String()] and [Permissions.Extensions] (the permissions
    are set by the authentication callback and taken to be non-nil). *)
Record ServerConn := mkServerConn {
  sc_user : string;
  sc_remote : string;
  sc_extensions : gmap string string
}.

Global Instance ServerConn_eq_dec : EqDecision ServerConn.
Proof. solve_decision. Defined.

(** [Connection]; [Pty] and [ShellRequests] are left out, the registry
    never reads them. *)
Record Connection := mkConnection {
  serverConnection : ServerConn;
  ConnectionDetails : string
}.

Record User := mkUser {
  userConnections : gmap string Connection;
  username : string;
  clients : gmap string ServerConn;
  autocomplete : Trie;
  privilege : option Z
}.

(** The package-level variables. [users] and [activeConnections] are
    declared in users.go.

    Modelled from the spec: [allClients] (controllee ID to connection) and
    [aliases] (alias to the set of controllee IDs), declared in a file of the
    package that is not among the sources. Each alias owns its inner map;
    [closed] records the connections [Close] was called on. *)
Record Registry := mkRegistry {
  users : gmap string User;
  activeConnections : gmap string bool;
  allClients : gmap string ServerConn;
  aliases : gmap string (gset string);
  closed : list ServerConn
}.

Definition emptyRegistry : Registry :=
  {| users := ∅; activeConnections := ∅; allClients := ∅; aliases := ∅;
     closed := [] |}.

Definition set_users (r : Registry) (us : gmap string User) : Registry :=
  {| users := us; activeConnections := activeConnections r;
     allClients := allClients r; aliases := aliases r; closed := closed r |}.

Definition set_activeConnections (r : Registry) (ac : gmap string bool) : Registry :=
  {| users := users r; activeConnections := ac;
     allClients := allClients r; aliases := aliases r; closed := closed r |}.

Definition set_aliases (r : Registry) (al : gmap string (gset string)) : Registry :=
  {| users := users r; activeConnections := activeConnections r;
     allClients := allClients r; aliases := al; closed := closed r |}.

Definition add_closed (r : Registry) (c : ServerConn) : Registry :=
  {| users := users r; activeConnections := activeConnections r;
     allClients := allClients r; aliases := aliases r;
     closed := closed r ++ [c] |}.

Definition set_userConnections (u : User) (m : gmap string Connection) : User :=
  {| userConnections := m; username := username u; clients := clients u;
     autocomplete := autocomplete u; privilege := privilege u |}.

Definition set_privilege (u : User) (p : option Z) : User :=
  {| userConnections := userConnections u; username := username u;
     clients := clients u; autocomplete := autocomplete u; privilege := p |}.

(** [(u *User) Privilege()] *)
Definition Privilege (u : User) : Z :=
  match privilege u with
  | None => 0
  | Some p => p
  end.

(** [strconv.Atoi] (Go standard library): an optional sign and at least one
    decimal digit, within the range of a 64-bit [int]. *)
Definition isDigit (a : ascii) : bool :=
  (48 <=? byte_of_ascii a) && (byte_of_ascii a <=? 57).

Definition digitsValue (ds : list ascii) : Z :=
  foldl (fun acc d => 10 * acc + (byte_of_ascii d - 48)) 0 ds.

Definition AtoiDigits (neg : bool) (ds : list ascii) : option Z :=
  match ds with
  | [] => None
  | _ =>
      if forallb isDigit ds then
        let v := if neg then - digitsValue ds else digitsValue ds in
        if (- 2 ^ 63 <=? v) && (v <? 2 ^ 63) then Some v else None
      else None
  end.

Definition Atoi (s : string) : option Z :=
  match list_ascii_of_string s with
  | [] => None
  | c :: ds =>
      if byte_of_ascii c =? 45 then AtoiDigits true ds
      else if byte_of_ascii c =? 43 then AtoiDigits false ds
      else AtoiDigits false (c :: ds)
  end.

(** [makeConnectionDetailsString]: [user@remote-address] *)
Definition makeConnectionDetailsString (c : ServerConn) : string :=
  (sc_user c ++ "@" ++ sc_remote c)%string.

(** The errors of the registry. *)
Inductive UsersError :=
  | ErrConnectionExists (details : string)   (* "connection already exists for ..." *)
  | ErrUserNotFound                          (* "not found" *)
  | ErrClientNotFound (identifier : string)  (* "... not found" *)
  | ErrAmbiguous (matches : Z) (identifier : string) (hosts : list string).

(** [_getUser] *)
Definition _getUser (r : Registry) (name : string) : User + UsersError :=
  match users r !! name with
  | Some u => inl u
  | None => inr ErrUserNotFound
  end.

(** [_createOrGetUser]: the registry after the call and what it returns,
    the user record with the connection details or the error. The user is a
    pointer into the map [users]; every write through it is written back
    under the key [name]. *)
Definition _createOrGetUser (r : Registry) (name : string)
    (conn : option ServerConn) : Registry * (User * string + UsersError) :=
  let '(us, u) :=
    match users r !! name with
    | Some u => (users r, u)
    | None =>
        let newUser := {| userConnections := ∅; username := name;
                          clients := ∅; autocomplete := NewTrie;
                          privilege := None |} in
        (<[name := newUser]> (users r), newUser)
    end in
  match conn with
  | Some c =>
      let newConnection :=
        {| serverConnection := c;
           ConnectionDetails := makeConnectionDetailsString c |} in
      let u :=
        match Atoi (default EmptyString (sc_extensions c !! "privilege"%string)) with
        | None => u
        | Some priv => set_privilege u (Some priv)
        end in
      match userConnections u !! ConnectionDetails newConnection with
      | Some _ =>
          (set_users r (<[name := u]> us),
           inr (ErrConnectionExists (ConnectionDetails newConnection)))
      | None =>
          let u := set_userConnections u
                     (<[ConnectionDetails newConnection := newConnection]>
                        (userConnections u)) in
          (set_activeConnections (set_users r (<[name := u]> us))
             (<[ConnectionDetails newConnection := true]> (activeConnections r)),
           inl (u, ConnectionDetails newConnection))
      end
  | None => (set_users r us, inl (u, EmptyString))
  end.

Definition CreateOrGetUser := _createOrGetUser.

(** [DisconnectUser]; the deferred [Close] runs on every path that has a
    connection. *)
Definition DisconnectUser (r : Registry) (conn : option ServerConn) : Registry :=
  match conn with
  | None => r
  | Some c =>
      let details := makeConnectionDetailsString c in
      match users r !! sc_user c with
      | None => add_closed r c
      | Some user =>
          let user' := set_userConnections user (delete details (userConnections user)) in
          let us := <[sc_user c := user']> (users r) in
          let ac := delete details (activeConnections r) in
          let us := if len (map_to_list (clients user')) =? 0
                    then delete (username user') us else us in
          add_closed (set_activeConnections (set_users r us) ac) c
      end
  end.

(** What [GetClient] returns: the connection ([searchClients[k]], nil when
    the key is absent), an error, or a panic (a method called on the nil
    connection of an absent key). *)
Inductive ClientResult :=
  | ClientFound (c : option ServerConn)
  | ClientError (e : UsersError)
  | ClientPanic.

(** One line of the list of ambiguous hosts, ["id (user remote)"]. *)
Definition hostLine (k : string) (c : ServerConn) : string :=
  (k ++ " (" ++ sc_user c ++ " " ++ sc_remote c ++ ")")%string.

(** [(u *User) GetClient(identifier)]: the registry after the call and the
    result. [matchingUniqueIDs] is the inner map of [aliases] itself, so
    the deletions are written to the registry. The order of a [range] over
    a map is unspecified; the host lines are in the order of [elements]. *)
Definition GetClient (r : Registry) (u : User) (identifier : string)
    : Registry * ClientResult :=
  match allClients r !! identifier with
  | Some m => (r, ClientFound (Some m))
  | None =>
      let searchClients :=
        if Privilege u =? AdminPermissions then allClients r else clients u in
      match aliases r !! identifier with
      | None => (r, ClientError (ErrClientNotFound identifier))
      | Some matchingUniqueIDs =>
          let toRemove :=
            if negb (Privilege u =? AdminPermissions) then
              filter (fun id => clients u !! id = None) (elements matchingUniqueIDs)
            else [] in
          let matchingUniqueIDs := matchingUniqueIDs ∖ list_to_set toRemove in
          let r := set_aliases r (<[identifier := matchingUniqueIDs]> (aliases r)) in
          match elements matchingUniqueIDs with
          | [k] => (r, ClientFound (searchClients !! k))
          | ks =>
              match mapM (fun k => hostLine k <$> searchClients !! k) ks with
              | Some hosts =>
                  (r, ClientError (ErrAmbiguous (len ks) identifier hosts))
              | None => (r, ClientPanic)
              end
          end
      end
  end.

(** ** The parsed line

    The parser ([ParseLine]) is not among the sources; the editor and the
    dispatcher are defined over any parser of this type. *)

Inductive NodeType := TCmd | TArgument | TFlag.

Global Instance NodeType_eq_dec : EqDecision NodeType.
Proof. solve_decision. Defined.

(** A [Node]: [Type()], [Start()], [End()] and [Value()]; the offsets count
    bytes of the line and [End()] is the offset after the last byte. *)
Record Node := mkNode {
  ntype : NodeType;
  nstart : Z;
  nend : Z;
  nvalue : string
}.

(** [ParsedLine]: [Focus] is the node under the cursor, [Section_] (the
    field [Section]) the enclosing flag. *)
Record ParsedLine := mkParsedLine {
  Command : option Node;
  Flags : gmap string Node;
  Arguments : list Node;
  Focus : option Node;
  Section_ : option Node;
  RawLine : string
}.

(** ** The editor state *)

(** An implementation of the interface [Command] (the name is taken by the
    field of [ParsedLine]), without its method [Run]: a handler is given
    the terminal itself, so it is kept beside the registry (see [Run]). *)
Record CommandImpl := mkCommand {
  Expect : ParsedLine -> option (list string);
  Help : bool -> string;
  ValidArgs : gmap string string
}.

(** An entry of [autoCompleteValues] is a pointer to a trie: either the
    terminal's own [functionsAutoComplete] or a trie owned elsewhere. *)
Inductive TrieRef :=
  | FunctionsTrie
  | ValueTrie (t : Trie).

(** The values of type [error] that the editor and the dispatcher handle. *)
Inductive error :=
  | ErrCtrlD
  | ErrPasteIndicator
  | EOF
  | ErrOther (msg : string).

Global Instance error_eq_dec : EqDecision error.
Proof. solve_decision. Defined.

(** [err.Error()] *)
Definition errorText (e : error) : string :=
  match e with
  | ErrCtrlD => "ctrl + D"
  | ErrPasteIndicator => "terminal: ErrPasteIndicator not correctly handled"
  | EOF => "EOF"
  | ErrOther msg => msg
  end.

(** What a call of [Read] on the underlying channel gives: some bytes, or
    an error. When no event is left the channel is closed ([io.EOF]). *)
Inductive ReadEvent :=
  | RBytes (b : list Z)
  | RErr (e : error).

(** The only callback the package installs. *)
Inductive Callback := defaultAutoCompleteCb.

(** The struct [Terminal]. [c_in] and [c_out] stand for the channel [c]:
    the reads still to come and the bytes written so far. [remainder] is
    the filled part of [inBuf], whose capacity is 256. [rawOverflow] is
    [None] for the nil channel and holds the buffered value otherwise.
    The fields [session], [user], [cancel], [Escape] and [lock] play no
    part in the functions below. *)
Record Terminal := mkTerminal {
  AutoCompleteCallback : option Callback;
  prompt : list Z;
  line : list Z;
  pos : Z;
  echo : bool;
  pasteActive : bool;
  cursorX : Z;
  cursorY : Z;
  maxLine : Z;
  termWidth : Z;
  termHeight : Z;
  outBuf : list Z;
  remainder : list Z;
  history : stRingBuffer;
  historyIndex : Z;
  historyPending : string;
  autoCompleteIndex : Z;
  autoCompletePos : Z;
  autoCompletePendng : string;
  autoCompleting : bool;
  functions : gmap string CommandImpl;
  functionsAutoComplete : Trie;
  autoCompleteValues : gmap string (list TrieRef);
  raw : bool;
  rawOverflow : option (list Z);
  c_in : list ReadEvent;
  c_out : list Z
}.

(** Field assignments [t.f = v]. *)
Definition Terminal_eta (t : Terminal) : Terminal :=
  mkTerminal (AutoCompleteCallback t) (prompt t) (line t) (pos t) (echo t)
    (pasteActive t) (cursorX t) (cursorY t) (maxLine t) (termWidth t)
    (termHeight t) (outBuf t) (remainder t) (history t) (historyIndex t)
    (historyPending t) (autoCompleteIndex t) (autoCompletePos t)
    (autoCompletePendng t) (autoCompleting t) (functions t)
    (functionsAutoComplete t) (autoCompleteValues t) (raw t) (rawOverflow t)
    (c_in t) (c_out t).

Ltac make_setter proj :=
  let e := eval cbv [Terminal_eta] in Terminal_eta in
  match eval pattern proj in e with
  | ?f _ => let r := eval cbv beta in (fun v t => f (fun _ => v) t) in exact r
  end.

Definition set_AutoCompleteCallback : option Callback -> Terminal -> Terminal :=
  ltac:(make_setter AutoCompleteCallback).
Definition set_prompt : list Z -> Terminal -> Terminal :=
  ltac:(make_setter prompt).
Definition set_line : list Z -> Terminal -> Terminal :=
  ltac:(make_setter line).
Definition set_pos : Z -> Terminal -> Terminal :=
  ltac:(make_setter pos).
Definition set_echo : bool -> Terminal -> Terminal :=
  ltac:(make_setter echo).
Definition set_pasteActive : bool -> Terminal -> Terminal :=
  ltac:(make_setter pasteActive).
Definition set_cursorX : Z -> Terminal -> Terminal :=
  ltac:(make_setter cursorX).
Definition set_cursorY : Z -> Terminal -> Terminal :=
  ltac:(make_setter cursorY).
Definition set_maxLine : Z -> Terminal -> Terminal :=
  ltac:(make_setter maxLine).
Definition set_termWidth : Z -> Terminal -> Terminal :=
  ltac:(make_setter termWidth).
Definition set_termHeight : Z -> Terminal -> Terminal :=
  ltac:(make_setter termHeight).
Definition set_outBuf : list Z -> Terminal -> Terminal :=
  ltac:(make_setter outBuf).
Definition set_remainder : list Z -> Terminal -> Terminal :=
  ltac:(make_setter remainder).
Definition set_history : stRingBuffer -> Terminal -> Terminal :=
  ltac:(make_setter history).
Definition set_historyIndex : Z -> Terminal -> Terminal :=
  ltac:(make_setter historyIndex).
Definition set_historyPending : string -> Terminal -> Terminal :=
  ltac:(make_setter historyPending).
Definition set_autoCompleteIndex : Z -> Terminal -> Terminal :=
  ltac:(make_setter autoCompleteIndex).
Definition set_autoCompletePos : Z -> Terminal -> Terminal :=
  ltac:(make_setter autoCompletePos).
Definition set_autoCompletePendng : string -> Terminal -> Terminal :=
  ltac:(make_setter autoCompletePendng).
Definition set_autoCompleting : bool -> Terminal -> Terminal :=
  ltac:(make_setter autoCompleting).
Definition set_functions : gmap string CommandImpl -> Terminal -> Terminal :=
  ltac:(make_setter functions).
Definition set_functionsAutoComplete : Trie -> Terminal -> Terminal :=
  ltac:(make_setter functionsAutoComplete).
Definition set_autoCompleteValues : gmap string (list TrieRef) -> Terminal -> Terminal :=
  ltac:(make_setter autoCompleteValues).
Definition set_raw : bool -> Terminal -> Terminal :=
  ltac:(make_setter raw).
Definition set_rawOverflow : option (list Z) -> Terminal -> Terminal :=
  ltac:(make_setter rawOverflow).
Definition set_c_in : list ReadEvent -> Terminal -> Terminal :=
  ltac:(make_setter c_in).
Definition set_c_out : list Z -> Terminal -> Terminal :=
  ltac:(make_setter c_out).

Definition inBufSize : Z := 256.

(** ** Output helpers *)

(** [c.Write(b)] on the channel *)
Definition chanWrite (b : list Z) (t : Terminal) : Terminal :=
  set_c_out (c_out t ++ b) t.

(** [t.c.Write(t.outBuf); t.outBuf = t.outBuf[:0]] *)
Definition flush (t : Terminal) : Terminal :=
  set_outBuf [] (chanWrite (outBuf t) t).

(** [(t *Terminal) queue(data)] *)
Definition queue (data : list Z) (t : Terminal) : Terminal :=
  set_outBuf (outBuf t ++ utf8.encode data) t.

Definition space : list Z := [32].

(** [isPrintable] *)
Definition isPrintable (key : Z) : bool :=
  let isInSurrogateArea := (55296 <=? key) && (key <=? 56319) in
  (key >=? 32) && negb isInSurrogateArea.

(** [[]rune(strconv.Itoa(n))] *)
Definition Itoa (n : Z) : list Z :=
  bytes_of_string (NilZero.string_of_int (Z.to_int n)).

(** One direction of [move]: nothing for a count below 1, [ESC '[' c] for
    1 and [ESC '[' n c] above. *)
Definition moveSeq (n : Z) (c : Z) : list Z :=
  if n =? 1 then [keyEscape; 91; c]
  else if n >? 1 then [keyEscape; 91] ++ Itoa n ++ [c]
  else [].

(** [(t *Terminal) move(up, down, left, right)] *)
Definition move (up down left right : Z) (t : Terminal) : Terminal :=
  queue (moveSeq up 65 ++ moveSeq down 66 ++ moveSeq right 67 ++ moveSeq left 68) t.

(** [visualLength] *)
Fixpoint visualLength_from (inEscapeSeq : bool) (runes : list Z) : Z :=
  match runes with
  | [] => 0
  | r :: rs =>
      if inEscapeSeq then
        visualLength_from
          (negb (((97 <=? r) && (r <=? 122)) || ((65 <=? r) && (r <=? 90)))) rs
      else if r =? 27 then visualLength_from true rs
      else 1 + visualLength_from false rs
  end.

Definition visualLength (runes : list Z) : Z := visualLength_from false runes.

(** [(t *Terminal) moveCursorToPos(pos)] *)
Definition moveCursorToPos (p : Z) (t : Terminal) : Terminal :=
  if negb (echo t) then t
  else
    let x := visualLength (prompt t) + p in
    let y := Z.quot x (termWidth t) in
    let x := Z.rem x (termWidth t) in
    let up := if y <? cursorY t then cursorY t - y else 0 in
    let down := if y >? cursorY t then y - cursorY t else 0 in
    let left := if x <? cursorX t then cursorX t - x else 0 in
    let right := if x >? cursorX t then x - cursorX t else 0 in
    move up down left right (set_cursorY y (set_cursorX x t)).

(** [(t *Terminal) clearLineToRight()] *)
Definition clearLineToRight (t : Terminal) : Terminal :=
  queue [keyEscape; 91; 75] t.

Definition maxLineLength : Z := 4096.

(** [(t *Terminal) advanceCursor(places)] *)
Definition advanceCursor (places : Z) (t : Terminal) : Terminal :=
  let t := set_cursorX (cursorX t + places) t in
  let t := set_cursorY (cursorY t + Z.quot (cursorX t) (termWidth t)) t in
  let t := if cursorY t >? maxLine t then set_maxLine (cursorY t) t else t in
  let t := set_cursorX (Z.rem (cursorX t) (termWidth t)) t in
  if (places >? 0) && (cursorX t =? 0)
  then set_outBuf (outBuf t ++ [13; 10]) t
  else t.

(** [(t *Terminal) writeLine(line)]. Each round writes at least one rune as
    long as [cursorX < termWidth], so [length line] rounds are enough;
    with the cursor at or beyond the width the Go loop does not advance
    (or panics on a negative slice bound) and the model stops. *)
Fixpoint writeLine_loop (fuel : nat) (l : list Z) (t : Terminal) : Terminal :=
  match fuel with
  | O => t
  | S fuel =>
      if len l =? 0 then t
      else
        let remainingOnLine := termWidth t - cursorX t in
        let todo := len l in
        let todo := if todo >? remainingOnLine then remainingOnLine else todo in
        if todo <=? 0 then t
        else
          let t := queue (take (Z.to_nat todo) l) t in
          let t := advanceCursor (visualLength (take (Z.to_nat todo) l)) t in
          writeLine_loop fuel (drop (Z.to_nat todo) l) t
  end.

Definition writeLine (l : list Z) (t : Terminal) : Terminal :=
  writeLine_loop (length l) l t.

(** [(t *Terminal) setLine(newLine, newPos)] *)
Definition setLine (newLine : list Z) (newPos : Z) (t : Terminal) : Terminal :=
  let t :=
    if echo t then
      let t := moveCursorToPos 0 t in
      let t := writeLine newLine t in
      let t := Nat.iter (Z.to_nat (len (line t) - len newLine)) (writeLine space) t in
      moveCursorToPos newPos t
    else t in
  set_pos newPos (set_line newLine t).

(** [(t *Terminal) eraseNPreviousChars(n)] *)
Definition eraseNPreviousChars (n : Z) (t : Terminal) : Terminal :=
  if n =? 0 then t
  else
    let n := if pos t <? n then pos t else n in
    let t := set_pos (pos t - n) t in
    let t := moveCursorToPos (pos t) t in
    let t := set_line (take (Z.to_nat (pos t)) (line t)
                       ++ drop (Z.to_nat (n + pos t)) (line t)) t in
    if echo t then
      let t := writeLine (drop (Z.to_nat (pos t)) (line t)) t in
      let t := Nat.iter (Z.to_nat n) (queue space) t in
      let t := advanceCursor n t in
      moveCursorToPos (pos t) t
    else t.

(** The two loops of [countToLeftWord], on the index [pos]. *)
Fixpoint leftSkipSpaces (l : list Z) (p : nat) : nat :=
  match p with
  | O => O
  | S p' => if negb (at_ l p =? 32) then p else leftSkipSpaces l p'
  end.

Fixpoint leftSkipWord (l : list Z) (p : nat) : nat :=
  match p with
  | O => O
  | S p' => if at_ l p =? 32 then S p else leftSkipWord l p'
  end.

(** [(t *Terminal) countToLeftWord()] *)
Definition countToLeftWord (t : Terminal) : Z :=
  if pos t =? 0 then 0
  else
    let p := Z.to_nat (pos t - 1) in
    let p := leftSkipSpaces (line t) p in
    let p := leftSkipWord (line t) p in
    pos t - Z.of_nat p.

(** The two loops of [countToRightWord], on the runes from the cursor on:
    how many the loop steps over. *)
Fixpoint rightSkipWord (l : list Z) : nat :=
  match l with
  | [] => O
  | c :: l' => if c =? 32 then O else S (rightSkipWord l')
  end.

Fixpoint rightSkipSpaces (l : list Z) : nat :=
  match l with
  | [] => O
  | c :: l' => if negb (c =? 32) then O else S (rightSkipSpaces l')
  end.

(** [(t *Terminal) countToRightWord()] *)
Definition countToRightWord (t : Terminal) : Z :=
  let rest := drop (Z.to_nat (pos t)) (line t) in
  let a := rightSkipWord rest in
  let b := rightSkipSpaces (drop a rest) in
  Z.of_nat (a + b).

(** [(t *Terminal) addKeyToLine(key)] *)
Definition addKeyToLine (key : Z) (t : Terminal) : Terminal :=
  let t := set_line (take (Z.to_nat (pos t)) (line t) ++ key
                     :: drop (Z.to_nat (pos t)) (line t)) t in
  let t := if echo t then writeLine (drop (Z.to_nat (pos t)) (line t)) t else t in
  let t := set_pos (pos t + 1) t in
  moveCursorToPos (pos t) t.

(** [resetAutoComplete] and [startAutoComplete] *)
Definition resetAutoComplete (t : Terminal) : Terminal :=
  set_autoCompletePos 0
    (set_autoCompleting false
       (set_autoCompletePendng EmptyString (set_autoCompleteIndex 0 t))).

Definition startAutoComplete (lineFragment : string) (p : Z) (t : Terminal) : Terminal :=
  set_autoCompletePos p
    (set_autoCompleting true
       (set_autoCompletePendng lineFragment (set_autoCompleteIndex 0 t))).

(** ** Strings of the Go standard library *)

Definition slen (s : string) : Z := Z.of_nat (String.length s).

(** [s[:n]] and [s[n:]] on the bytes of a string (a bound out of range, a
    panic in Go, does not arise where the editor slices). *)
Definition str_take (n : Z) (s : string) : string :=
  string_of_list_ascii (take (Z.to_nat n) (list_ascii_of_string s)).
Definition str_drop (n : Z) (s : string) : string :=
  string_of_list_ascii (drop (Z.to_nat n) (list_ascii_of_string s)).

(** [sort.Strings]: ascending in the byte-wise order of strings. *)
Fixpoint insertSorted (x : string) (l : list string) : list string :=
  match l with
  | [] => [x]
  | y :: l' => if String.leb x y then x :: l else y :: insertSorted x l'
  end.

Definition sortStrings (l : list string) : list string :=
  foldr insertSorted [] l.

(** [unicode.IsSpace] *)
Definition IsSpace (r : Z) : bool :=
  ((9 <=? r) && (r <=? 13)) || (r =? 32) || (r =? 133) || (r =? 160)
  || (r =? 5760) || ((8192 <=? r) && (r <=? 8202))
  || (r =? 8232) || (r =? 8233) || (r =? 8239) || (r =? 8287) || (r =? 12288).

Fixpoint trimLeft (rs : list Z) : list Z :=
  match rs with
  | [] => []
  | r :: rs' => if IsSpace r then trimLeft rs' else rs
  end.

Definition trimRunes (rs : list Z) : list Z :=
  rev (trimLeft (rev (trimLeft rs))).

(** [strings.TrimSpace] on a valid UTF-8 string, rune by rune (every line
    of the editor is the conversion of a rune slice, hence valid). *)
Definition TrimSpace (s : string) : string :=
  string_of_runes (trimRunes (runes_of_string s)).

(** [strconv.Quote] for text without characters to escape, as [%q]
    prints it. *)
Definition dquote : string := String (ascii_of_nat 34) EmptyString.
Definition Quote (s : string) : string := (dquote ++ s ++ dquote)%string.

(** [strings.Join] *)
Fixpoint Join (l : list string) (sep : string) : string :=
  match l with
  | [] => EmptyString
  | [x] => x
  | x :: l' => (x ++ sep ++ Join l' sep)%string
  end.

Definition newline : string := String (ascii_of_nat 10) EmptyString.

(** ** Autocomplete *)

(** [buildDisplayLine]. The [case] of a command node is empty, so the
    replacement starts from the empty string. *)
Definition buildDisplayLine (focus : option Node) (l : string) (mtch : string)
    (currentPos : Z) : string * Z :=
  match focus with
  | None =>
      let output := (str_take currentPos l ++ mtch)%string in
      let newPos := slen output in
      ((output ++ str_drop currentPos l)%string, newPos)
  | Some f =>
      let output :=
        match ntype f with
        | TCmd => EmptyString
        | TArgument => str_take (nstart f) l
        | TFlag => (str_take (nend f) l ++ " ")%string
        end in
      let output := (output ++ mtch)%string in
      let newPos := slen output in
      ((output ++ str_drop (nend f) l)%string, newPos)
  end.

(** The trie behind an entry of [autoCompleteValues]. *)
Definition derefTrie (t : Terminal) (r : TrieRef) : Trie :=
  match r with
  | FunctionsTrie => functionsAutoComplete t
  | ValueTrie tr => tr
  end.

(** [expected[0][0] == '<' && expected[0][len(expected[0])-1] == '>'] *)
Definition isTag (s : string) : bool :=
  let b := bytes_of_string s in
  (at_ b 0 =? 60) && (at_ b (length b - 1) =? 62).

Section Editor.

(** The parser of the package, [ParseLine(line, cursorPosition)]. *)
Variable ParseLine : string -> Z -> ParsedLine.

(** The candidates [defaultAutoComplete] collects on a Tab, before they
    are sorted. *)
Definition completionMatches (term : Terminal) (parsedLine : ParsedLine)
    : list string :=
  match Command parsedLine with
  | None => PrefixMatch (functionsAutoComplete term) EmptyString
  | Some cmd =>
      let focusAtStart :=
        match Focus parsedLine with
        | Some f => nstart f =? 0
        | None => false
        end in
      if focusAtStart then
        PrefixMatch (functionsAutoComplete term)
          (from_option nvalue EmptyString (Focus parsedLine))
      else
        match functions term !! nvalue cmd with
        | None => []
        | Some function =>
            match Expect function parsedLine with
            | None => []
            | Some expected =>
                match expected with
                | [e0] =>
                    if (slen e0 >? 1) && isTag e0 then
                      match autoCompleteValues term !! e0 with
                      | Some tries =>
                          let searchString :=
                            match Focus parsedLine, Section_ parsedLine with
                            | Some f, None => nvalue f
                            | Some f, Some sec =>
                                if negb (nstart f =? nstart sec)
                                then nvalue f else EmptyString
                            | None, _ => EmptyString
                            end in
                          concat ((fun tr => PrefixMatch (derefTrie term tr) searchString)
                                    <$> tries)
                      | None => expected
                      end
                    else expected
                | _ => expected
                end
            end
        end
  end.

(** [defaultAutoComplete(term, line, pos, key)]: the terminal after the
    call and [(newLine, newPos, ok)]. [matches[i]] is read with a
    default: the index is below the length, it was reduced modulo the
    length of the same candidate list on the Tab before. *)
Definition defaultAutoComplete (term : Terminal) (l : string) (p : Z) (key : Z)
    : Terminal * (string * Z * bool) :=
  if key =? 9 then
    let term := if negb (autoCompleting term) then startAutoComplete l p term
                else term in
    let parsedLine := ParseLine (autoCompletePendng term) (autoCompletePos term) in
    let matches := sortStrings (completionMatches term parsedLine) in
    let parsedLine := ParseLine l p in
    match matches with
    | [] => (term, (EmptyString, 0, false))
    | [m] =>
        let term := resetAutoComplete term in
        let '(output, newPos) := buildDisplayLine (Focus parsedLine) l m p in
        match Focus parsedLine with
        | Some f =>
            if decide (ntype f = TCmd)
            then (term, ((output ++ " ")%string, newPos + 1, true))
            else (term, (output, newPos, true))
        | None => (term, (output, newPos, true))
        end
    | _ =>
        let currentMatch :=
          nth (Z.to_nat (autoCompleteIndex term)) matches EmptyString in
        let term := set_autoCompleteIndex
                      (Z.rem (autoCompleteIndex term + 1) (len matches)) term in
        let '(output, newPos) := buildDisplayLine (Focus parsedLine) l currentMatch p in
        (term, (output, newPos, true))
    end
  else (resetAutoComplete term, (EmptyString, 0, false)).

(** The keys of the first [switch] of [handleKey]. *)
Definition resetsAutoComplete (key : Z) : bool :=
  bool_decide (key ∈ [keyBackspace; keyAltLeft; keyAltRight; keyLeft; keyRight;
                      keyHome; keyEnd; keyDel; keyUp; keyDown; keyEnter;
                      keyDeleteWord; keyDeleteLine; keyCtrlD; keyCtrlU;
                      keyClearScreen]).

(** [(t *Terminal) handleKey(key)]: the terminal after the call and
    [(line, ok)]; [None] is a panic (of the history ring). *)
Definition handleKey (key : Z) (t : Terminal)
    : option (Terminal * (string * bool)) :=
  let none (t : Terminal) := Some (t, (EmptyString, false)) in
  if pasteActive t && negb (key =? keyEnter) then
    none (addKeyToLine key (resetAutoComplete t))
  else
    let t := if resetsAutoComplete key then resetAutoComplete t else t in
    if key =? keyDel then
      if (pos t >=? len (line t)) || (len (line t) =? 0) then none t
      else none (eraseNPreviousChars 1 (set_pos (pos t + 1) t))
    else if key =? keyBackspace then
      if pos t =? 0 then none t else none (eraseNPreviousChars 1 t)
    else if key =? keyAltLeft then
      let t := set_pos (pos t - countToLeftWord t) t in
      none (moveCursorToPos (pos t) t)
    else if key =? keyAltRight then
      let t := set_pos (pos t + countToRightWord t) t in
      none (moveCursorToPos (pos t) t)
    else if key =? keyLeft then
      if pos t =? 0 then none t
      else let t := set_pos (pos t - 1) t in none (moveCursorToPos (pos t) t)
    else if key =? keyRight then
      if pos t =? len (line t) then none t
      else let t := set_pos (pos t + 1) t in none (moveCursorToPos (pos t) t)
    else if key =? keyHome then
      if pos t =? 0 then none t
      else let t := set_pos 0 t in none (moveCursorToPos (pos t) t)
    else if key =? keyEnd then
      if pos t =? len (line t) then none t
      else let t := set_pos (len (line t)) t in none (moveCursorToPos (pos t) t)
    else if key =? keyUp then
      match NthPreviousEntry (history t) (historyIndex t + 1) with
      | None => None
      | Some (_, false) => none t
      | Some (entry, true) =>
          let t := if historyIndex t =? -1
                   then set_historyPending (string_of_runes (line t)) t else t in
          let t := set_historyIndex (historyIndex t + 1) t in
          let runes := runes_of_string entry in
          none (setLine runes (len runes) t)
      end
    else if key =? keyDown then
      if historyIndex t =? -1 then none t
      else if historyIndex t =? 0 then
        let runes := runes_of_string (historyPending t) in
        let t := setLine runes (len runes) t in
        none (set_historyIndex (historyIndex t - 1) t)
      else
        match NthPreviousEntry (history t) (historyIndex t - 1) with
        | None => None
        | Some (_, false) => none t
        | Some (entry, true) =>
            let t := set_historyIndex (historyIndex t - 1) t in
            let runes := runes_of_string entry in
            none (setLine runes (len runes) t)
        end
    else if key =? keyEnter then
      let t := moveCursorToPos (len (line t)) t in
      let t := queue [13; 10] t in
      let l := string_of_runes (line t) in
      let t := set_maxLine 0 (set_cursorY 0 (set_cursorX 0
                 (set_pos 0 (set_line [] t)))) in
      Some (t, (l, true))
    else if key =? keyDeleteWord then
      none (eraseNPreviousChars (countToLeftWord t) t)
    else if key =? keyDeleteLine then
      let t := Nat.iter (Z.to_nat (len (line t) - pos t))
                 (fun t => advanceCursor 1 (queue space t)) t in
      let t := set_line (take (Z.to_nat (pos t)) (line t)) t in
      none (moveCursorToPos (pos t) t)
    else if key =? keyCtrlD then
      if pos t <? len (line t)
      then none (eraseNPreviousChars 1 (set_pos (pos t + 1) t))
      else none t
    else if key =? keyCtrlU then
      none (eraseNPreviousChars (pos t) t)
    else if key =? keyClearScreen then
      let t := queue [27; 91; 50; 74; 27; 91; 72] t in
      let t := queue (prompt t) t in
      let t := set_cursorY 0 (set_cursorX 0 t) in
      let t := advanceCursor (visualLength (prompt t)) t in
      none (setLine (line t) (pos t) t)
    else if key =? keyCtrlC then
      let t := queue [94; 67; 13; 10] t in
      let t := queue (prompt t) t in
      let t := set_cursorX 0 t in
      let t := advanceCursor (visualLength (prompt t)) t in
      none (setLine [] 0 t)
    else
      let typed (t : Terminal) :=
        if negb (isPrintable key) then none t
        else if len (line t) =? maxLineLength then none t
        else none (addKeyToLine key t) in
      match AutoCompleteCallback t with
      | Some defaultAutoCompleteCb =>
          let prefix := string_of_runes (take (Z.to_nat (pos t)) (line t)) in
          let suffix := string_of_runes (drop (Z.to_nat (pos t)) (line t)) in
          let '(t, (newLine, newPos, completeOk)) :=
            defaultAutoComplete t (prefix ++ suffix)%string (slen prefix) key in
          if completeOk then
            none (setLine (runes_of_string newLine)
                    (utf8.RuneCount (take (Z.to_nat newPos) (bytes_of_string newLine)))
                    t)
          else typed t
      | None => typed t
      end.

(** [writeWithCRLF(t.c, buf)]: every ['\n'] is written as ["\r\n"]. *)
Definition writeWithCRLF (buf : list Z) (t : Terminal) : Terminal :=
  chanWrite (concat ((fun b => if b =? 10 then crlf else [b]) <$> buf)) t.

(** [(t *Terminal) Write(buf)] *)
Definition Write (buf : list Z) (t : Terminal) : Terminal :=
  if raw t then chanWrite buf t
  else if (cursorX t =? 0) && (cursorY t =? 0) then writeWithCRLF buf t
  else
    let t := move 0 0 (cursorX t) 0 t in
    let t := set_cursorX 0 t in
    let t := clearLineToRight t in
    let t := Nat.iter (Z.to_nat (cursorY t))
               (fun t => clearLineToRight (set_cursorY (cursorY t - 1) (move 1 0 0 0 t)))
               t in
    let t := flush t in
    let t := writeWithCRLF buf t in
    let t := writeLine (prompt t) t in
    let t := if echo t then writeLine (line t) t else t in
    let t := moveCursorToPos (pos t) t in
    flush t.

(** [fmt.Fprint(t, s)]: one [Write] of the text. *)
Definition Fprint (s : string) (t : Terminal) : Terminal :=
  Write (bytes_of_string s) t.

(** What [readLine] does: it returns [(line, err)], panics, or is still
    in its loop when the fuel of the model is spent. *)
Inductive ReadLineResult :=
  | Returned (t : Terminal) (l : string) (err : option error)
  | Panicked
  | OutOfFuel.

(** How the inner loop of [readLine] ends: it leaves the loop (on the
    sentinel or with a line), returns [ErrCtrlD] from within, or panics. *)
Inductive KeysResult :=
  | KeysDone (t : Terminal) (rest : list Z) (lineIsPasted : bool)
             (l : string) (lineOk : bool)
  | KeysCtrlD (t : Terminal)
  | KeysPanic.

(** The loop [for !lineOk] of [readLine]. Every round takes at least one
    byte off [rest]; [fuel] bounds the rounds. *)
Fixpoint processKeys (fuel : nat) (t : Terminal) (rest : list Z)
    (lineIsPasted : bool) : KeysResult :=
  match fuel with
  | O => KeysDone t rest lineIsPasted EmptyString false
  | S fuel =>
      match bytesToKey rest (pasteActive t) with
      | KeyPanic => KeysPanic
      | KeyOk key rest =>
          if key =? utf8.RuneError then
            KeysDone t rest lineIsPasted EmptyString false
          else if negb (pasteActive t) && (key =? keyCtrlD)
                  && (len (line t) =? 0) then
            KeysCtrlD t
          else if negb (pasteActive t) && (key =? keyPasteStart) then
            processKeys fuel (set_pasteActive true t) rest
              (if len (line t) =? 0 then true else lineIsPasted)
          else if pasteActive t && (key =? keyPasteEnd) then
            processKeys fuel (set_pasteActive false t) rest lineIsPasted
          else
            let lineIsPasted := if negb (pasteActive t) then false
                                else lineIsPasted in
            match handleKey key t with
            | None => KeysPanic
            | Some (t, (l, true)) => KeysDone t rest lineIsPasted l true
            | Some (t, (_, false)) => processKeys fuel t rest lineIsPasted
            end
      end
  end.

(** [t.c.Read(readBuf)] with [readBuf = t.inBuf[len(t.remainder):]]: the
    next event of the channel; a read takes what fits into the buffer and
    leaves the rest of the bytes on the channel. *)
Definition chanRead (t : Terminal) : Terminal * (list Z + error) :=
  match c_in t with
  | [] => (t, inr EOF)
  | RErr e :: evs => (set_c_in evs t, inr e)
  | RBytes bs :: evs =>
      let room := Z.to_nat (inBufSize - len (remainder t)) in
      let got := take room bs in
      let left := drop room bs in
      (set_c_in (match left with [] => evs | _ => RBytes left :: evs end) t,
       inl got)
  end.

(** The outer loop [for] of [readLine]; [fuel] bounds the reads. *)
Fixpoint readLine_loop (fuel : nat) (t : Terminal) (lineIsPasted : bool)
    : ReadLineResult :=
  match fuel with
  | O => OutOfFuel
  | S fuel =>
      match processKeys (S (length (remainder t))) t (remainder t) lineIsPasted with
      | KeysPanic => Panicked
      | KeysCtrlD t => Returned t EmptyString (Some ErrCtrlD)
      | KeysDone t rest lineIsPasted l lineOk =>
          let t := set_remainder (take (Z.to_nat inBufSize) rest) t in
          let t := flush t in
          if lineOk then
            let line2 := TrimSpace l in
            let err := if lineIsPasted then Some ErrPasteIndicator else None in
            if echo t then
              let t := set_historyIndex (-1) t in
              if negb (String.eqb line2 EmptyString) then
                match Add (history t) line2 with
                | Some h => Returned (set_history h t) l err
                | None => Panicked
                end
              else Returned t l err
            else Returned t l err
          else
            match chanRead t with
            | (t, inr e) => Returned t EmptyString (Some e)
            | (t, inl got) =>
                readLine_loop fuel (set_remainder (remainder t ++ got) t) lineIsPasted
            end
      end
  end.

(** [(t *Terminal) readLine()] *)
Definition readLine (fuel : nat) (t : Terminal) : ReadLineResult :=
  let t := if (cursorX t =? 0) && (cursorY t =? 0)
           then flush (writeLine (prompt t) t) else t in
  let lineIsPasted := pasteActive t in
  let t :=
    match rawOverflow t with
    | Some data =>
        set_rawOverflow None (set_remainder (take (Z.to_nat inBufSize) data) t)
    | None => t
    end in
  readLine_loop fuel t lineIsPasted.

(** [(t *Terminal) ReadLine()] *)
Definition ReadLine := readLine.

(** [(t *Terminal) clearAndRepaintLinePlusNPrevious(numPrevLines)] *)
Definition clearAndRepaintLinePlusNPrevious (numPrevLines : Z) (t : Terminal)
    : Terminal :=
  let t := move (cursorY t) 0 (cursorX t) 0 t in
  let t := set_cursorY 0 (set_cursorX 0 t) in
  let t := clearLineToRight t in
  let t := Nat.iter (Z.to_nat numPrevLines)
             (fun t => clearLineToRight (set_cursorY (cursorY t + 1) (move 0 1 0 0 t)))
             t in
  let t := move (cursorY t) 0 0 0 t in
  let t := set_cursorY 0 (set_cursorX 0 t) in
  let t := queue (prompt t) t in
  let t := advanceCursor (visualLength (prompt t)) t in
  let t := writeLine (line t) t in
  moveCursorToPos (pos t) t.

(** [(t *Terminal) SetSize(width, height)] *)
Definition SetSize (width height : Z) (t : Terminal) : Terminal :=
  let width := if width =? 0 then 1 else width in
  let oldWidth := termWidth t in
  let t := set_termHeight height (set_termWidth width t) in
  if width =? oldWidth then t
  else if (len (line t) =? 0) && (cursorX t =? 0) && (cursorY t =? 0) then t
  else if width <? oldWidth then
    let t := if cursorX t >=? termWidth t
             then set_cursorX (termWidth t - 1) t else t in
    let t := set_cursorY (cursorY t * 2) t in
    flush (clearAndRepaintLinePlusNPrevious (maxLine t * 2) t)
  else if width >? oldWidth then
    flush (clearAndRepaintLinePlusNPrevious (maxLine t) t)
  else flush t.

(** [(t *Terminal) removeDuplicates(stringsSlice)] *)
Fixpoint dedup (seen : gset string) (l : list string) : list string :=
  match l with
  | [] => []
  | x :: l' => if decide (x ∈ seen) then dedup seen l'
               else x :: dedup ({[ x ]} ∪ seen) l'
  end.

Definition removeDuplicates (l : list string) : list string :=
  sortStrings (dedup ∅ l).

(** The method [Run] of the registered commands, by the name they are
    registered under: the terminal after the handler and its error. *)
Variable handler : string -> ParsedLine -> Terminal -> Terminal * option error.

(** How [Run] ends: it returns an error, panics, or is still in its loop
    when the fuel of the model is spent. *)
Inductive RunResult :=
  | RunReturned (t : Terminal) (err : error)
  | RunPanicked
  | RunOutOfFuel (t : Terminal).

(** What one round of the loop of [Run] does with a line read without
    error: [inl] continues with the next round, [inr] returns. *)
Definition dispatch (l : string) (t : Terminal) : Terminal + Terminal * error :=
  let parsedLine := ParseLine l (pos t) in
  match Command parsedLine with
  | None => inl t
  | Some cmd =>
      match functions t !! nvalue cmd with
      | None => inl (Fprint ("Unknown command: " ++ nvalue cmd ++ newline) t)
      | Some f =>
          if bool_decide (is_Some (Flags parsedLine !! "h"%string))
             || bool_decide (is_Some (Flags parsedLine !! "help"%string))
          then inl (Fprint (Help f false) t)
          else
            let validFlags := ValidArgs f in
            let failed :=
              filter (fun flag => validFlags !! flag = None
                                  ∧ ¬ (flag = "h"%string ∨ flag = "help"%string))
                     (elements (dom (Flags parsedLine))) in
            if len failed >? 0 then
              let failed := removeDuplicates failed in
              let suffix := if len failed >? 1 then "s"%string else EmptyString in
              let t := Fprint ("invalid flag" ++ suffix ++ ": "
                               ++ Quote (Join failed ", ") ++ newline ++ newline) t in
              inl (Fprint (Help f false) t)
            else
              match handler (nvalue cmd) parsedLine t with
              | (t, Some err) =>
                  if decide (err = EOF) then inr (t, err)
                  else inl (Fprint (errorText err ++ newline) t)
              | (t, None) => inl t
              end
      end
  end.

(** [(t *Terminal) Run()]: [rounds] bounds the rounds of the loop and
    [fuel] the reads of each [ReadLine]. *)
Fixpoint Run (rounds fuel : nat) (t : Terminal) : RunResult :=
  match rounds with
  | O => RunOutOfFuel t
  | S rounds =>
      match ReadLine fuel t with
      | Panicked => RunPanicked
      | OutOfFuel => RunOutOfFuel t
      | Returned t _ (Some err) => RunReturned t err
      | Returned t l None =>
          match dispatch l t with
          | inl t => Run rounds fuel t
          | inr (t, err) => RunReturned t err
          end
      end
  end.

End Editor.

(** [NewTerminal(c, prompt)]; [input] is what the channel [c] will give. *)
Definition NewTerminal (input : list ReadEvent) (prompt : string) : Terminal :=
  {| AutoCompleteCallback := None;
     prompt := runes_of_string prompt;
     line := []; pos := 0; echo := true; pasteActive := false;
     cursorX := 0; cursorY := 0; maxLine := 0;
     termWidth := 80; termHeight := 24;
     outBuf := []; remainder := [];
     history := emptyRing; historyIndex := -1; historyPending := EmptyString;
     autoCompleteIndex := 0; autoCompletePos := 0;
     autoCompletePendng := EmptyString; autoCompleting := false;
     functions := ∅; functionsAutoComplete := NewTrie; autoCompleteValues := ∅;
     raw := false; rawOverflow := None;
     c_in := input; c_out := [] |}.

(** [(t *Terminal) AddValueAutoComplete(placement, trie...)]: an entry that
    exists is kept (and an error returned). *)
Definition AddValueAutoComplete (placement : string) (tries : list TrieRef)
    (t : Terminal) : Terminal :=
  match autoCompleteValues t !! placement with
  | Some _ => t
  | None => set_autoCompleteValues (<[placement := tries]> (autoCompleteValues t)) t
  end.

(** [NewAdvancedTerminal(c, user, session, prompt)]. [functionsTag] is the
    constant [autocomplete.Functions], declared in a package that is not
    among the sources. *)
Definition NewAdvancedTerminal (functionsTag : string) (input : list ReadEvent)
    (prompt : string) : Terminal :=
  AddValueAutoComplete functionsTag [FunctionsTrie]
    {| AutoCompleteCallback := Some defaultAutoCompleteCb;
       prompt := runes_of_string prompt;
       line := []; pos := 0; echo := true; pasteActive := false;
       cursorX := 0; cursorY := 0; maxLine := 0;
       termWidth := 80; termHeight := 24;
       outBuf := []; remainder := [];
       history := emptyRing; historyIndex := -1; historyPending := EmptyString;
       autoCompleteIndex := 0; autoCompletePos := 0;
       autoCompletePendng := EmptyString; autoCompleting := false;
       functions := ∅; functionsAutoComplete := NewTrie; autoCompleteValues := ∅;
       raw := false; rawOverflow := None;
       c_in := input; c_out := [] |}.

(** [(t *Terminal) AddCommands(m)] *)
Definition AddCommands (m : gmap string CommandImpl) (t : Terminal) : Terminal :=
  let t := set_functions m t in
  set_functionsAutoComplete
    (foldr (fun k tr => TrieAdd tr k) (functionsAutoComplete t) (elements (dom m))) t.

(** ** The line parser, from the specification *)

Definition isWhite (a : ascii) : bool :=
  let b := byte_of_ascii a in (b =? 32) || ((9 <=? b) && (b <=? 13)).

(** The tokens of a line, [(start, end, text)] with [end] the offset after
    the last byte: white space separates tokens. [cur] is the token being
    read, its text reversed. *)
Fixpoint tokenize (l : list ascii) (i : Z) (cur : option (Z * list ascii))
    : list (Z * Z * string) :=
  let close :=
    match cur with
    | Some (st, acc) => [(st, i, string_of_list_ascii (rev acc))]
    | None => []
    end in
  match l with
  | [] => close
  | c :: l' =>
      if isWhite c then close ++ tokenize l' (i + 1) None
      else tokenize l' (i + 1)
             (Some (match cur with
                    | Some (st, acc) => (st, c :: acc)
                    | None => (i, [c])
                    end))
  end.

Definition isDash (a : ascii) : bool := byte_of_ascii a =? 45.
Definition isEquals (a : ascii) : bool := byte_of_ascii a =? 61.

Fixpoint dropDashes (l : list ascii) : list ascii :=
  match l with
  | c :: l' => if isDash c then dropDashes l' else l
  | [] => []
  end.

Fixpoint untilEquals (l : list ascii) : list ascii :=
  match l with
  | c :: l' => if isEquals c then [] else c :: untilEquals l'
  | [] => []
  end.

(** The name of a flag token: the characters after the dashes, up to the
    first [=]. *)
Definition flagName (tok : string) : string :=
  string_of_list_ascii (untilEquals (dropDashes (list_ascii_of_string tok))).

Definition startsWithDash (tok : string) : bool :=
  match tok with
  | String c _ => isDash c
  | EmptyString => false
  end.

(** The node of a token that follows the command. *)
Definition nodeOfToken (tok : Z * Z * string) : Node :=
  let '(st, en, txt) := tok in
  if startsWithDash txt then mkNode TFlag st en (flagName txt)
  else mkNode TArgument st en txt.

(** The cursor is on a node: within [[start, end)], or also right after
    the last byte when [atEnd] is set. *)
Definition cursorOn (atEnd : bool) (cursor : Z) (n : Node) : bool :=
  (nstart n <=? cursor) && ((cursor <? nend n) || (atEnd && (cursor =? nend n))).

(** Modelled from the spec: the line parser [ParseLine] (its file is not
    among the sources). White space separates tokens; the first token is the
    command; a later token that begins with a dash is a flag, named by the
    characters after the dashes up to the first [=]; the other tokens are
    arguments, in order. [Focus] is the node the cursor is on. The spec gives
    the extent of a node as [[start, end)] and also has the editor complete
    the token the cursor stands right behind; [atEnd] selects between the
    two readings, and the properties below do not depend on the choice
    unless they say so. With the cursor on white space between two tokens,
    [Focus] is nil and [Section] is the token before the cursor; at the
    edge of the line both are nil. *)
Definition ParseLineSpec (atEnd : bool) (l : string) (cursor : Z) : ParsedLine :=
  let toks := tokenize (list_ascii_of_string l) 0 None in
  let nodes :=
    match toks with
    | [] => []
    | (st, en, txt) :: rest => mkNode TCmd st en txt :: (nodeOfToken <$> rest)
    end in
  let focus := head (filter (fun n => cursorOn atEnd cursor n = true) nodes) in
  let before := filter (fun n => (nend n <=? cursor) = true) nodes in
  let after := filter (fun n => (cursor <? nstart n) = true) nodes in
  {| Command := head nodes;
     Flags := list_to_map ((fun n => (nvalue n, n))
                             <$> filter (fun n => ntype n = TFlag) nodes);
     Arguments := filter (fun n => ntype n = TArgument) nodes;
     Focus := focus;
     Section_ := match focus, after with
                 | Some f, _ => Some f
                 | None, [] => None
                 | None, _ => last before
                 end;
     RawLine := l |}.

(** * The notions the properties are stated with *)

(** The ring holds the strings added so far, [l] in the order of the
    calls: the [k]-th previous entry, for [k] below the size, is stored [k]
    places before [head], around the ring. *)
Definition ring_holds (l : list string) (s : stRingBuffer) : Prop :=
  (l = [] ∧ s = emptyRing)
  ∨ (l ≠ []
     ∧ rb_max s = 100
     ∧ length (rb_entries s) = 100%nat
     ∧ 0 <= rb_head s < 100
     ∧ rb_size s = Z.min (len l) 100
     ∧ ∀ k : nat, Z.of_nat k < rb_size s →
         rb_entries s !! Z.to_nat ((rb_head s - Z.of_nat k) mod 100)
         = Some (nth k (rev l) EmptyString)).

(** Every record of the map is stored under its own user name. *)
Definition registry_wf (r : Registry) : Prop :=
  ∀ k u, users r !! k = Some u → username u = k.

(** The user record [_createOrGetUser] works on: the one of the map, or a
    fresh one. *)
Definition userOrNew (r : Registry) (name : string) : User :=
  default {| userConnections := ∅; username := name; clients := ∅;
             autocomplete := NewTrie; privilege := None |}
          (users r !! name).

(** The record after the privilege of the connection is parsed. *)
Definition withPrivilege (u : User) (c : ServerConn) : User :=
  match Atoi (default EmptyString (sc_extensions c !! "privilege"%string)) with
  | None => u
  | Some priv => set_privilege u (Some priv)
  end.

(** Two operator connections of the same user, from two remote ports. *)
Definition aliceConn1 : ServerConn :=
  mkServerConn "alice" "1.2.3.4:5001" {[ "privilege"%string := "0"%string ]}.
Definition aliceConn2 : ServerConn :=
  mkServerConn "alice" "1.2.3.4:5002" {[ "privilege"%string := "0"%string ]}.

(** The registry after both connections of alice are attached. *)
Definition aliceTwice : Registry :=
  fst (CreateOrGetUser
         (fst (CreateOrGetUser emptyRegistry "alice" (Some aliceConn1)))
         "alice" (Some aliceConn2)).

(** The user owns a controllee. *)
Definition ownsControllee (r : Registry) (name : string) : Prop :=
  ∃ u, users r !! name = Some u ∧ clients u ≠ ∅.

(** The user has an operator session: the liveness set holds the label of
    a connection of the user. *)
Definition hasOperatorSession (r : Registry) (name : string) : Prop :=
  ∃ c, sc_user c = name
       ∧ (activeConnections r !! makeConnectionDetailsString c = Some true).

(** The invariant as the specification words it. *)
Definition presence_as_specified (r : Registry) : Prop :=
  ∀ name, is_Some (users r !! name)
          ↔ ownsControllee r name ∨ hasOperatorSession r name.

(** A controllee of bob, known under the alias [web], and two users who own
    nothing: alice, an ordinary user, and root, an admin. *)
Definition controlleeX : ServerConn := mkServerConn "agent" "10.0.0.9:22" ∅.

Definition webRegistry : Registry :=
  {| users := ∅; activeConnections := ∅;
     allClients := {[ "X"%string := controlleeX ]};
     aliases := {[ "web"%string := {[ "X"%string ]} ]};
     closed := [] |}.

Definition alice : User :=
  {| userConnections := ∅; username := "alice"; clients := ∅;
     autocomplete := NewTrie; privilege := Some 0 |}.

Definition root : User :=
  {| userConnections := ∅; username := "root"; clients := ∅;
     autocomplete := NewTrie; privilege := Some 5 |}.

(** A call of one of the two operations on the registry. *)
Inductive Call :=
  | CallCreate (name : string) (conn : option ServerConn)
  | CallDisconnect (conn : option ServerConn).

Definition applyCall (r : Registry) (c : Call) : Registry :=
  match c with
  | CallCreate name conn => fst (CreateOrGetUser r name conn)
  | CallDisconnect conn => DisconnectUser r conn
  end.

(** The registry after the calls, from the empty one. *)
Definition afterCalls (calls : list Call) : Registry :=
  foldl applyCall emptyRegistry calls.

(** Whether the user is in the map after a call, given whether it was
    before: a [CreateOrGetUser] for the user puts it there, a
    [DisconnectUser] of one of its connections removes it. *)
Definition presentAfter (name : string) (present : bool) (c : Call) : bool :=
  match c with
  | CallCreate n _ => if decide (n = name) then true else present
  | CallDisconnect (Some conn) =>
      if decide (sc_user conn = name) then false else present
  | CallDisconnect None => present
  end.

(** No record of the registry owns a controllee. *)
Definition no_controllees (r : Registry) : Prop :=
  ∀ k u, users r !! k = Some u → clients u = ∅.

(** The rune a conversion to a string keeps: itself, or U+FFFD for a value
    that is no Unicode scalar. *)
Definition sanitize (r : Z) : Z :=
  if (r <? 0) || (utf8.MaxRune <? r) || ((55296 <=? r) && (r <=? 57343))
  then utf8.RuneError else r.

(** The encoding of a rune, with the bit operations as arithmetic. *)
Definition encodeArith (r : Z) : list Z :=
  if (0 <=? r) && (r <=? 127) then [r]
  else if (0 <=? r) && (r <=? 2047) then [192 + r / 64; 128 + r mod 64]
  else if (r <? 0) || (utf8.MaxRune <? r) || ((55296 <=? r) && (r <=? 57343)) then
    [239; 191; 189]
  else if r <=? 65535 then
    [224 + r / 4096; 128 + (r / 64) mod 64; 128 + r mod 64]
  else
    [240 + r / 262144; 128 + (r / 4096) mod 64; 128 + (r / 64) mod 64;
     128 + r mod 64].

(** [t'] is [t] up to what is on the screen: the cursor, the highest row,
    and the queued output. *)
Definition display_only (t' t : Terminal) : Prop :=
  t' = set_outBuf (outBuf t')
         (set_maxLine (maxLine t')
            (set_cursorY (cursorY t') (set_cursorX (cursorX t') t))).

(** The cursor is on the row: its column is at least 0 and below the
    width. *)
Definition cursor_ok (t : Terminal) : Prop := 0 <= cursorX t < termWidth t.

(** The loop of [writeLine] round by round, as Go runs it: it ends when
    the line is empty; a round takes [line[:todo]], which needs
    [0 <= todo], and goes on with [line[todo:]]. A round with [todo = 0]
    changes nothing, so a loop that comes to one never ends and is no run
    of this relation. *)
Inductive writeLine_rounds : list Z -> Terminal -> Terminal -> Prop :=
  | writeLine_end (t : Terminal) : writeLine_rounds [] t t
  | writeLine_round (l : list Z) (t t' : Terminal) :
      len l ≠ 0 ->
      let remainingOnLine := termWidth t - cursorX t in
      let todo := if len l >? remainingOnLine then remainingOnLine else len l in
      0 <= todo ->
      writeLine_rounds (drop (Z.to_nat todo) l)
        (advanceCursor (visualLength (take (Z.to_nat todo) l))
           (queue (take (Z.to_nat todo) l) t)) t' ->
      writeLine_rounds l t t'.

(** The terminal as [readLine] leaves it while it waits for input: the
    prompt is written and nothing is typed. *)
Definition promptShown (t : Terminal) : Terminal :=
  flush (writeLine (prompt t) t).

(** A string that is not empty and has a character that is no white
    space. *)
Definition hygienic (e : string) : Prop :=
  e ≠ EmptyString ∧ ∃ r, r ∈ runes_of_string e ∧ IsSpace r = false.

(** The history holds strings that are all hygienic. *)
Definition history_clean (t : Terminal) : Prop :=
  ∃ l, ring_holds l (history t) ∧ Forall hygienic l.

(** The terminals that arise from a new terminal by calls of [ReadLine],
    with anything in between that leaves the history alone (the handlers,
    [Write], [SetSize], more input on the channel). *)
Inductive afterReadLines (P : string -> Z -> ParsedLine) : Terminal -> Prop :=
  | arl_new input prompt : afterReadLines P (NewTerminal input prompt)
  | arl_advanced tag input prompt :
      afterReadLines P (NewAdvancedTerminal tag input prompt)
  | arl_read fuel t t' l err :
      afterReadLines P t → ReadLine P fuel t = Returned t' l err →
      afterReadLines P t'
  | arl_other t t' :
      afterReadLines P t → history t' = history t → afterReadLines P t'.

(** A line typed between spaces, and the terminal after [ReadLine]
    returned it. *)
Definition lsInput : list ReadEvent := [RBytes (bytes_of_string "  ls " ++ [13])].

Definition lsTerminal : Terminal :=
  match ReadLine (ParseLineSpec true) 3 (NewTerminal lsInput "> ") with
  | Returned t _ _ => t
  | _ => NewTerminal [] ""
  end.

(** What [readLine] leaves in the line buffer when the input ends without
    Enter ([-1] when it does not return). *)
Definition lineLengthAfter (P : string -> Z -> ParsedLine) (input : list Z) : Z :=
  match ReadLine P 40 (NewTerminal [RBytes input] "> ") with
  | Returned t _ _ => len (line t)
  | _ => -1
  end.

(** A command without completion of its own. *)
Definition plainCommand : CommandImpl :=
  {| Expect := fun _ => None; Help := fun _ => EmptyString; ValidArgs := ∅ |}.

(** The registered commands [help], [hello] and [exit]. *)
Definition threeCommands : gmap string CommandImpl :=
  {[ "help"%string := plainCommand; "hello"%string := plainCommand;
     "exit"%string := plainCommand ]}.

(** The operator terminal with these commands, reading [input]. *)
Definition operatorTerminal (input : list ReadEvent) : Terminal :=
  AddCommands threeCommands (NewAdvancedTerminal "<functions>" input "> ").

(** The keys [ks], one after the other, through [handleKey]. *)
Definition pressKeys (P : string -> Z -> ParsedLine) (ks : list Z) (t : Terminal)
    : option Terminal :=
  foldl (fun acc k => acc ≫= fun t => fst <$> handleKey P k t) (Some t) ks.

(** The line on the screen and the index of the completion. *)
Definition shown (o : option Terminal) : option (string * Z) :=
  (fun t => (string_of_runes (line t), autoCompleteIndex t)) <$> o.

Definition hel : list Z := [104; 101; 108].

(** The error [Run] returns, if it returns one. *)
Definition runError (r : RunResult) : option error :=
  match r with
  | RunReturned _ e => Some e
  | _ => None
  end.

(** The line and the error [ReadLine] returns, if it returns. *)
Definition lineAndError (r : ReadLineResult) : option (string * option error) :=
  match r with
  | Returned _ l e => Some (l, e)
  | _ => None
  end.

(** The command [help], pasted with its Enter. *)
Definition pastedHelp : list ReadEvent :=
  [RBytes (pasteStart ++ bytes_of_string "help" ++ [13])].

(** * Properties *)

(** Boolean comparisons on [Z] as propositions. *)
Ltac zbool :=
  repeat first
    [ rewrite andb_true_iff in * | rewrite orb_true_iff in *
    | rewrite negb_true_iff in * | rewrite negb_false_iff in *
    | rewrite andb_false_iff in * | rewrite orb_false_iff in *
    | rewrite Z.leb_le in * | rewrite Z.ltb_lt in * | rewrite Z.eqb_eq in *
    | rewrite Z.geb_le in * | rewrite Z.gtb_lt in *
    | rewrite Z.leb_gt in * | rewrite Z.ltb_ge in * | rewrite Z.eqb_neq in *
    | rewrite Z.geb_leb in * | rewrite Z.gtb_ltb in * ].

(** ** The history ring *)

Lemma AddAll_snoc (l : list string) (a : string) :
  AddAll (l ++ [a]) = AddAll l ≫= fun s => Add s a.
Proof. unfold AddAll. by rewrite foldl_app. Qed.

Lemma len_app {A} (l1 l2 : list A) : len (l1 ++ l2) = len l1 + len l2.
Proof. unfold len. rewrite length_app. lia. Qed.

Lemma Add_first (a : string) :
  ∃ s, Add emptyRing a = Some s ∧ ring_holds [a] s.
Proof.
  eexists. split; [reflexivity|].
  right. repeat split; try done.
  intros k Hk. cbn in Hk.
  assert (k = 0%nat) as -> by lia. reflexivity.
Qed.

Lemma Add_next (l : list string) (s : stRingBuffer) (a : string) :
  l ≠ [] → ring_holds l s →
  ∃ s', Add s a = Some s' ∧ ring_holds (l ++ [a]) s'.
Proof.
  intros Hne [[-> _]|(_ & Hmax & Hlen & Hhead & Hsize & Hent)]; [done|].
  unfold Add.
  destruct (rb_entries s) as [|e es] eqn:He; [done|].
  rewrite <- He in *. clear e es He.
  rewrite Hmax. cbn [Z.eqb].
  assert (Hrem : Z.rem (rb_head s + 1) 100 = (rb_head s + 1) mod 100)
    by (apply Z.rem_mod_nonneg; lia).
  rewrite Hrem.
  set (h := (rb_head s + 1) mod 100).
  assert (Hh : 0 <= h < 100) by (apply Z.mod_pos_bound; lia).
  assert (Hrange : (0 <=? h) && (h <? len (rb_entries s)) = true).
  { unfold len. rewrite Hlen. zbool. lia. }
  rewrite Hrange. eexists. split; [reflexivity|].
  right. cbn [rb_max rb_entries rb_head rb_size].
  split; [by destruct l|].
  split; [done|].
  split; [by rewrite length_insert|].
  split; [done|].
  assert (Hsz : (if rb_size s <? 100 then rb_size s + 1 else rb_size s)
                = Z.min (len (l ++ [a])) 100).
  { rewrite len_app. unfold len at 2. cbn [length].
    destruct (rb_size s <? 100) eqn:E; lia. }
  split; [exact Hsz|].
  rewrite Hsz. intros k Hk.
  rewrite rev_app_distr. cbn [rev app].
  destruct k as [|k].
  - cbn [nth]. replace (h - Z.of_nat 0) with h by lia.
    rewrite Z.mod_small by lia.
    apply list_lookup_insert_eq. lia.
  - cbn [nth].
    assert (Hk' : Z.of_nat k < rb_size s).
    { rewrite len_app in Hk. unfold len at 2 in Hk. cbn [length] in Hk. lia. }
    assert (Hidx : (h - Z.of_nat (S k)) mod 100 = (rb_head s - Z.of_nat k) mod 100).
    { unfold h. rewrite Zminus_mod_idemp_l. f_equal. lia. }
    rewrite Hidx.
    rewrite list_lookup_insert_ne; [by apply Hent|].
    assert (Hkb : Z.of_nat k < 99) by lia.
    intros Heq. apply Z2Nat.inj in Heq; [|lia|apply Z.mod_pos_bound; lia].
    unfold h in Heq.
    pose proof (Z.mod_pos_bound (rb_head s - Z.of_nat k) 100).
    pose proof (Nat2Z.is_nonneg k).
    revert Heq. Z.div_mod_to_equations. lia.
Qed.

Lemma AddAll_holds (l : list string) :
  ∃ s, AddAll l = Some s ∧ ring_holds l s.
Proof.
  induction l as [|a l IH] using rev_ind.
  - exists emptyRing. split; [reflexivity|]. by left.
  - destruct IH as (s & Hs & Hinv).
    rewrite AddAll_snoc, Hs. cbn [mbind option_bind].
    destruct l as [|b l'].
    + destruct Hinv as [[_ ->]|[? _]]; [|done]. apply Add_first.
    + by apply Add_next.
Qed.

Lemma NthPreviousEntry_holds (l : list string) (s : stRingBuffer) (n : nat) :
  ring_holds l s →
  NthPreviousEntry s (Z.of_nat n) =
    if Z.of_nat n <? rb_size s
    then Some (nth n (rev l) EmptyString, true)
    else Some (EmptyString, false).
Proof.
  intros [[-> ->]|(_ & Hmax & Hlen & Hhead & Hsize & Hent)].
  - unfold NthPreviousEntry. cbn [rb_size emptyRing].
    destruct (Z.of_nat n >=? 0) eqn:E1; [|zbool; lia].
    destruct (Z.of_nat n <? 0) eqn:E2; [zbool; lia|done].
  - unfold NthPreviousEntry.
    destruct (Z.of_nat n <? rb_size s) eqn:E.
    + assert (Hlt : Z.of_nat n < rb_size s) by (zbool; lia).
      destruct (Z.of_nat n >=? rb_size s) eqn:E1; [zbool; lia|].
      rewrite Hmax.
      set (index := if rb_head s - Z.of_nat n <? 0
                    then rb_head s - Z.of_nat n + 100
                    else rb_head s - Z.of_nat n).
      assert (Hidx : index = (rb_head s - Z.of_nat n) mod 100).
      { unfold index. pose proof (Nat2Z.is_nonneg n).
        destruct (rb_head s - Z.of_nat n <? 0) eqn:E2; zbool;
          Z.div_mod_to_equations; lia. }
      assert (H0 : (0 <=? index) = true).
      { rewrite Hidx. zbool. apply Z.mod_pos_bound. lia. }
      rewrite H0, Hidx, (Hent n Hlt). done.
    + destruct (Z.of_nat n >=? rb_size s) eqn:E1; [done|zbool; lia].
Qed.

(** C4. The history is a bounded FIFO of capacity 100. After the calls
    [Add(a)] for the strings of [l], in order (none of which panics), the
    size is [min (len l) 100], and [NthPreviousEntry(n)] returns the string
    added [n] calls before the latest one when [n] is below the size, and
    fails with [ok = false] otherwise. The entries are the added strings
    themselves, repeated ones included. *)
Theorem history_bounded_fifo (l : list string) :
  ∃ s, AddAll l = Some s
     ∧ rb_size s = Z.min (len l) 100
     ∧ ∀ n : nat,
         NthPreviousEntry s (Z.of_nat n) =
           if Z.of_nat n <? rb_size s
           then Some (nth n (rev l) EmptyString, true)
           else Some (EmptyString, false).
Proof.
  destruct (AddAll_holds l) as (s & Hs & Hinv).
  exists s. split; [done|]. split.
  - destruct Hinv as [[-> ->]|(_ & _ & _ & _ & Hsize & _)]; [done|exact Hsize].
  - intros n. by apply NthPreviousEntry_holds.
Qed.

(** The latest string added is the entry 0, whatever was added before. *)
Corollary history_latest (l : list string) (a : string) :
  ∃ s, AddAll (l ++ [a]) = Some s ∧ NthPreviousEntry s 0 = Some (a, true).
Proof.
  destruct (AddAll_holds (l ++ [a])) as (s & Hs & Hinv).
  exists s. split; [done|].
  pose proof (NthPreviousEntry_holds _ _ 0%nat Hinv) as Hnth.
  change (Z.of_nat 0) with 0 in Hnth. rewrite Hnth.
  destruct Hinv as [[Hnil _]|(_ & _ & _ & _ & Hsize & _)].
  { by destruct l. }
  rewrite Hsize, len_app, rev_app_distr. unfold len. cbn [length rev app nth].
  destruct (0 <? Z.min (Z.of_nat (length l) + Z.of_nat 1) 100) eqn:E; [done|].
  zbool. lia.
Qed.

(** ** The key decoder *)

Lemma slice_from_app {A} (p rest : list A) :
  slice_from (p ++ rest) (length p) = Some rest.
Proof.
  unfold slice_from. case_decide as H.
  - by rewrite drop_app_length.
  - rewrite length_app in H. lia.
Qed.

(** A complete [ESC '[' '3' '~'] is Delete and takes its own four bytes. *)
Lemma bytesToKey_delete (rest : list Z) :
  bytesToKey ([keyEscape; 91; 51; 126] ++ rest) false = KeyOk keyDel rest.
Proof.
  pose proof (slice_from_app [keyEscape; 91; 51; 126] rest) as Hs.
  cbn [length app] in Hs.
  unfold bytesToKey. cbn -[slice_from len].
  assert (Hlen : (len (keyEscape :: 91 :: 51 :: 126 :: rest) >=? 3) = true).
  { unfold len. cbn [length]. zbool. lia. }
  rewrite Hlen. cbn -[slice_from]. unfold ret_from. by rewrite Hs.
Qed.

(** Every proper prefix of a recognised sequence other than [ESC '[' '3']
    gives the sentinel and leaves the buffer as it is; so does a proper
    prefix of the end-of-paste marker while a paste is active. *)
Lemma bytesToKey_prefixes_wait :
  (∀ s p, s ∈ (fst <$> recognised) → p ∈ properPrefixes s →
          p ≠ [keyEscape; 91; 51] → needsMore p false = true)
  ∧ (∀ p, p ∈ properPrefixes pasteEnd → needsMore p true = true).
Proof.
  split.
  - intros s p Hs Hp Hne.
    assert (H : Forall (fun s => Forall (fun p =>
                  p ≠ [keyEscape; 91; 51] → needsMore p false = true)
                  (properPrefixes s)) (fst <$> recognised)).
    { repeat (constructor; [repeat (constructor; [by vm_compute|])|]);
        try constructor. all: try (by vm_compute). all: try done. }
    rewrite Forall_forall in H. specialize (H s Hs).
    rewrite Forall_forall in H. by apply H.
  - intros p Hp.
    assert (H : Forall (fun p => needsMore p true = true) (properPrefixes pasteEnd)).
    { repeat (constructor; [by vm_compute|]). constructor. }
    rewrite Forall_forall in H. by apply H.
Qed.

Lemma FullRune_false_lead (b0 : Z) (b : list Z) :
  utf8.FullRune (b0 :: b) = false → 194 <= b0.
Proof.
  unfold utf8.FullRune, utf8.first. intros H.
  assert (Hn : 1 <= len (b0 :: b)) by (unfold len; cbn [length]; lia).
  destruct (b0 <? 128) eqn:E1.
  { change (Z.land 240 7) with 0 in H.
    destruct (len (b0 :: b) >=? 0) eqn:E; [done|zbool; lia]. }
  destruct (b0 <? 194) eqn:E2.
  { change (Z.land 241 7) with 1 in H.
    destruct (len (b0 :: b) >=? 1) eqn:E; [done|zbool; lia]. }
  zbool. lia.
Qed.

(** A partial UTF-8 rune gives the sentinel and leaves the buffer as it
    is, in both modes. *)
Lemma bytesToKey_partial_rune (b : list Z) (pasteActive : bool) :
  b ≠ [] → utf8.FullRune b = false →
  bytesToKey b pasteActive = KeyOk utf8.RuneError b.
Proof.
  destruct b as [|b0 b]; [done|]. intros _ Hfull.
  pose proof (FullRune_false_lead _ _ Hfull) as Hlead.
  unfold bytesToKey.
  assert (Hc : controlKey b0 = None).
  { unfold controlKey.
    repeat match goal with
           | |- context [?x =? ?y] => destruct (x =? y) eqn:?; [zbool; lia|]
           end. done. }
  assert (He : (b0 =? keyEscape) = false) by (unfold keyEscape; zbool; lia).
  rewrite Hc, He, Hfull. by destruct pasteActive.
Qed.

(** C5, on the code. The buffer [ESC '[' '3'], a proper prefix of the
    Delete sequence [ESC '[' '3' '~'], does not give the sentinel: the
    branch for ['3'] returns [b[4:]] of a slice of three bytes, and the call
    panics. *)
Theorem bytesToKey_partial_delete_panics :
  bytesToKey [keyEscape; 91; 51] false = KeyPanic
  ∧ [keyEscape; 91; 51] ∈ properPrefixes [keyEscape; 91; 51; 126]
  ∧ needsMore [keyEscape; 91; 51] false = false.
Proof.
  split; [reflexivity|]. split; [|reflexivity].
  cbn. set_solver.
Qed.

(** ** The user and session registry *)

Lemma emptyRegistry_wf : registry_wf emptyRegistry.
Proof. intros k u H. cbn in H. by rewrite lookup_empty in H. Qed.

Lemma len_map_to_list_0 {A} (m : gmap string A) :
  (len (map_to_list m) =? 0) = true ↔ m = ∅.
Proof.
  rewrite Z.eqb_eq. unfold len. rewrite <- map_to_list_empty_iff.
  destruct (map_to_list m); cbn [length]; split; intros; try done; lia.
Qed.

Lemma withPrivilege_fields (u : User) (c : ServerConn) :
  userConnections (withPrivilege u c) = userConnections u
  ∧ username (withPrivilege u c) = username u
  ∧ clients (withPrivilege u c) = clients u.
Proof. unfold withPrivilege. by destruct (Atoi _). Qed.

(** [_createOrGetUser], case by case. *)
Lemma createOrGetUser_unfold (r : Registry) (name : string)
    (conn : option ServerConn) :
  _createOrGetUser r name conn =
    match conn with
    | None =>
        (set_users r (<[name := userOrNew r name]> (users r)),
         inl (userOrNew r name, EmptyString))
    | Some c =>
        let key := makeConnectionDetailsString c in
        let u := withPrivilege (userOrNew r name) c in
        match userConnections u !! key with
        | Some _ =>
            (set_users r (<[name := u]> (users r)), inr (ErrConnectionExists key))
        | None =>
            let u' := set_userConnections u
                        (<[key := mkConnection c key]> (userConnections u)) in
            (set_activeConnections (set_users r (<[name := u']> (users r)))
               (<[key := true]> (activeConnections r)),
             inl (u', key))
        end
    end.
Proof.
  unfold _createOrGetUser, userOrNew, withPrivilege.
  destruct (users r !! name) as [u|] eqn:Hu; cbn [default].
  - destruct conn as [c|].
    + cbn zeta. destruct (Atoi _); cbn; repeat case_match; simplify_eq; done.
    + by rewrite insert_id.
  - destruct conn as [c|].
    + cbn zeta. destruct (Atoi _); cbn; rewrite ?lookup_empty, ?insert_insert_eq; done.
    + done.
Qed.

(** C9. [CreateOrGetUser(username, sshConn)] leaves a record for the user
    in the map, created if it was absent, and touches no other record.
    With a connection, the session is keyed by [user@remote-address]: if
    the user already has a session with this key the call fails with the
    duplicate-session error and adds nothing; otherwise it succeeds,
    returns the key, and the key is in the sessions of the user and in the
    global liveness set. Without a connection it returns the user and an
    empty key. *)
Theorem CreateOrGetUser_sessions (r : Registry) (name : string)
    (conn : option ServerConn) :
  let r' := fst (CreateOrGetUser r name conn) in
  let res := snd (CreateOrGetUser r name conn) in
  is_Some (users r' !! name)
  ∧ (users r !! name = None →
       ∃ u, users r' !! name = Some u ∧ username u = name ∧ clients u = ∅)
  ∧ (∀ other, other ≠ name → users r' !! other = users r !! other)
  ∧ match conn with
    | None =>
        ∃ u, res = inl (u, EmptyString) ∧ users r' !! name = Some u
             ∧ activeConnections r' = activeConnections r
    | Some c =>
        let key := (sc_user c ++ "@" ++ sc_remote c)%string in
        match users r !! name ≫= fun u => userConnections u !! key with
        | Some s =>
            res = inr (ErrConnectionExists key)
            ∧ activeConnections r' = activeConnections r
            ∧ ∃ u, users r' !! name = Some u
                   ∧ userConnections u = userConnections (userOrNew r name)
        | None =>
            ∃ u, res = inl (u, key)
                 ∧ users r' !! name = Some u
                 ∧ userConnections u
                   = <[key := mkConnection c key]> (userConnections (userOrNew r name))
                 ∧ activeConnections r' = <[key := true]> (activeConnections r)
        end
    end.
Proof.
  unfold CreateOrGetUser. rewrite createOrGetUser_unfold.
  change (makeConnectionDetailsString ?c) with (sc_user c ++ "@" ++ sc_remote c)%string.
  destruct conn as [c|]; cbn zeta.
  - destruct (withPrivilege_fields (userOrNew r name) c) as (Hconn & Hname & Hcl).
    rewrite Hconn.
    assert (Hold : users r !! name ≫= (fun u => userConnections u !! (sc_user c ++ "@" ++ sc_remote c)%string)
                   = userConnections (userOrNew r name) !! (sc_user c ++ "@" ++ sc_remote c)%string).
    { unfold userOrNew. destruct (users r !! name); [done|].
      cbn. by rewrite lookup_empty. }
    rewrite Hold.
    destruct (userConnections (userOrNew r name) !! _) as [s|] eqn:Hs; cbn.
    + rewrite lookup_insert_eq. split; [done|]. split.
      { intros Hnone. eexists. split; [done|]. rewrite Hname, Hcl.
        unfold userOrNew. by rewrite Hnone. }
      split; [intros other Hne; by rewrite lookup_insert_ne|].
      split; [done|]. split; [done|]. eexists. split; [done|]. done.
    + rewrite lookup_insert_eq. split; [done|]. split.
      { intros Hnone. eexists. split; [done|]. cbn. rewrite Hname, Hcl.
        unfold userOrNew. by rewrite Hnone. }
      split; [intros other Hne; by rewrite lookup_insert_ne|].
      eexists. split; [done|]. split; [done|]. cbn. done.
  - cbn. rewrite lookup_insert_eq. split; [done|]. split.
    { intros Hnone. eexists. split; [done|]. unfold userOrNew. by rewrite Hnone. }
    split; [intros other Hne; by rewrite lookup_insert_ne|].
    eexists. done.
Qed.

Lemma createOrGetUser_wf (r : Registry) (name : string) (conn : option ServerConn) :
  registry_wf r → registry_wf (fst (_createOrGetUser r name conn)).
Proof.
  intros Hwf. rewrite createOrGetUser_unfold.
  assert (Hn : username (userOrNew r name) = name).
  { unfold userOrNew. destruct (users r !! name) eqn:E; [by apply Hwf|done]. }
  destruct conn as [c|]; cbn zeta.
  - destruct (withPrivilege_fields (userOrNew r name) c) as (_ & Hname & _).
    destruct (userConnections _ !! _); intros k u; cbn;
      (destruct (decide (name = k)) as [<-|Hne];
       [rewrite lookup_insert_eq; intros [= <-]; cbn; congruence
       |rewrite lookup_insert_ne by done; apply Hwf]).
  - intros k u; cbn. destruct (decide (name = k)) as [<-|Hne].
    + rewrite lookup_insert_eq. by intros [= <-].
    + rewrite lookup_insert_ne by done. apply Hwf.
Qed.

Lemma DisconnectUser_wf (r : Registry) (conn : option ServerConn) :
  registry_wf r → registry_wf (DisconnectUser r conn).
Proof.
  intros Hwf. unfold DisconnectUser. destruct conn as [c|]; [|done].
  destruct (users r !! sc_user c) as [user|] eqn:Hu; [|exact Hwf].
  intros k u. cbn.
  assert (Hins : ∀ k u, <[sc_user c := set_userConnections user
                   (delete (makeConnectionDetailsString c) (userConnections user))]>
                   (users r) !! k = Some u → username u = k).
  { intros k' u'. destruct (decide (sc_user c = k')) as [<-|Hne].
    - rewrite lookup_insert_eq. intros [= <-]. cbn. by apply Hwf.
    - rewrite lookup_insert_ne by done. apply Hwf. }
  destruct (len (map_to_list (clients user)) =? 0).
  - intros H. apply lookup_delete_Some in H as [_ H]. by apply Hins.
  - apply Hins.
Qed.

Lemma createOrGetUser_present (r : Registry) (name : string)
    (conn : option ServerConn) :
  is_Some (users (fst (_createOrGetUser r name conn)) !! name).
Proof.
  rewrite createOrGetUser_unfold.
  destruct conn as [c|]; cbn zeta; [destruct (userConnections _ !! _)|];
    cbn; by rewrite lookup_insert_eq.
Qed.

Lemma createOrGetUser_other (r : Registry) (name other : string)
    (conn : option ServerConn) :
  other ≠ name →
  users (fst (_createOrGetUser r name conn)) !! other = users r !! other.
Proof.
  intros Hne. rewrite createOrGetUser_unfold.
  destruct conn as [c|]; cbn zeta; [destruct (userConnections _ !! _)|];
    cbn; by rewrite lookup_insert_ne.
Qed.

Lemma DisconnectUser_presence (r : Registry) (c : ServerConn) :
  registry_wf r →
  match users r !! sc_user c with
  | Some u =>
      is_Some (users (DisconnectUser r (Some c)) !! sc_user c) ↔ clients u ≠ ∅
  | None => users (DisconnectUser r (Some c)) !! sc_user c = None
  end.
Proof.
  intros Hwf. unfold DisconnectUser.
  destruct (users r !! sc_user c) as [user|] eqn:Hu; [|done].
  cbn. rewrite (Hwf _ _ Hu).
  destruct (len (map_to_list (clients user)) =? 0) eqn:E.
  - apply len_map_to_list_0 in E. rewrite lookup_delete_eq.
    split; [by intros [? ?]|done].
  - rewrite lookup_insert_eq. split; [|done].
    intros _ Hempty. apply len_map_to_list_0 in Hempty. congruence.
Qed.

(** C2, as the code has it. In a registry whose records are stored under
    their own names (which both operations preserve):
    [CreateOrGetUser] leaves the user in the map, with or without a
    session; after [DisconnectUser] of a connection of a registered user
    the user is in the map if and only if it owns a controllee, whatever
    sessions it still has. *)
Theorem registry_presence (r : Registry) (Hwf : registry_wf r) :
  (∀ name conn,
     is_Some (users (fst (CreateOrGetUser r name conn)) !! name)
     ∧ registry_wf (fst (CreateOrGetUser r name conn)))
  ∧ (∀ c,
       registry_wf (DisconnectUser r (Some c))
       ∧ match users r !! sc_user c with
         | Some u =>
             is_Some (users (DisconnectUser r (Some c)) !! sc_user c)
             ↔ clients u ≠ ∅
         | None => users (DisconnectUser r (Some c)) !! sc_user c = None
         end).
Proof.
  split.
  - intros name conn. split;
      [apply createOrGetUser_present|by apply createOrGetUser_wf].
  - intros c. split; [by apply DisconnectUser_wf|by apply DisconnectUser_presence].
Qed.

(** C2 fails as stated: alice attaches twice and disconnects once; her
    second session is still live (and its connection not closed), she owns no
    controllee, and her record is gone. *)
Lemma disconnect_drops_user_with_live_session :
  let r := DisconnectUser aliceTwice (Some aliceConn1) in
  users r !! "alice"%string = None
  ∧ activeConnections r !! "alice@1.2.3.4:5002"%string = Some true
  ∧ (aliceConn2 ∉ closed r)
  ∧ (¬ presence_as_specified r).
Proof.
  assert (H1 : users (DisconnectUser aliceTwice (Some aliceConn1)) !! "alice"%string = None)
    by (by vm_compute).
  assert (H2 : activeConnections (DisconnectUser aliceTwice (Some aliceConn1))
               !! "alice@1.2.3.4:5002"%string = Some true) by (by vm_compute).
  cbn zeta. split; [done|]. split; [done|]. split.
  - intros Hin. vm_compute in Hin. apply list_elem_of_singleton in Hin. discriminate Hin.
  - intros Hinv. destruct (Hinv "alice"%string) as [_ Hback].
    rewrite H1 in Hback. destruct Hback as [? ?]; [|discriminate].
    right. exists aliceConn2. split; [done|]. exact H2.
Qed.

Lemma aliceTwice_wf : registry_wf aliceTwice.
Proof. do 2 apply createOrGetUser_wf. apply emptyRegistry_wf. Qed.

Lemma registry_presence_witness :
  registry_wf aliceTwice
  ∧ (is_Some (users (DisconnectUser aliceTwice (Some aliceConn1)) !! "alice"%string)
     ↔ clients (userOrNew aliceTwice "alice") ≠ ∅).
Proof.
  split; [exact aliceTwice_wf|].
  exact (proj2 (proj2 (registry_presence aliceTwice aliceTwice_wf) aliceConn1)).
Defined.

(** The registry [GetClient] leaves behind. *)
Lemma GetClient_registry (r : Registry) (u : User) (identifier : string) :
  fst (GetClient r u identifier) =
    match allClients r !! identifier, aliases r !! identifier with
    | None, Some ids =>
        set_aliases r
          (<[identifier :=
               ids ∖ list_to_set
                       (if negb (Privilege u =? AdminPermissions)
                        then filter (fun id => clients u !! id = None) (elements ids)
                        else [])]> (aliases r))
    | _, _ => r
    end.
Proof. unfold GetClient. repeat case_match; simplify_eq; done. Qed.

(** An admin reads the alias map and leaves it as it is. *)
Lemma GetClient_admin_keeps_registry (r : Registry) (u : User) (identifier : string) :
  Privilege u = AdminPermissions → fst (GetClient r u identifier) = r.
Proof.
  intros Hp. rewrite GetClient_registry, Hp.
  destruct (allClients r !! identifier); [done|].
  destruct (aliases r !! identifier) as [ids|] eqn:Ha; [|done].
  cbn [Z.eqb AdminPermissions Pos.eqb negb].
  rewrite list_to_set_nil, difference_empty_L.
  rewrite insert_id by done. by destruct r.
Qed.

(** C10. [GetClient] called by a user who is no admin, for an identifier
    that is no controllee ID but an alias: the global alias map after the
    call holds, for this alias, only the IDs the caller owns; the IDs of
    other users are deleted from the shared map itself, so every later
    lookup, by any user, starts from the pruned set. The other aliases are
    unchanged. *)
Theorem GetClient_prunes_alias_map (r : Registry) (u : User)
    (identifier : string) (ids : gset string) :
  Privilege u ≠ AdminPermissions →
  allClients r !! identifier = None →
  aliases r !! identifier = Some ids →
  let r' := fst (GetClient r u identifier) in
  aliases r' !! identifier
    = Some (filter (fun id => is_Some (clients u !! id)) ids)
  ∧ (∀ other, other ≠ identifier → aliases r' !! other = aliases r !! other)
  ∧ (∀ id, id ∈ ids → clients u !! id = None →
       ∀ ids', aliases r' !! identifier = Some ids' → id ∉ ids')
  ∧ users r' = users r ∧ allClients r' = allClients r.
Proof.
  intros Hp Hall Hal. cbn zeta. rewrite GetClient_registry, Hall, Hal.
  assert (Hneq : (Privilege u =? AdminPermissions) = false) by (zbool; done).
  rewrite Hneq. cbn [negb].
  set (pruned := ids ∖ list_to_set
                   (filter (fun id => clients u !! id = None) (elements ids))).
  assert (Hpr : pruned = filter (fun id => is_Some (clients u !! id)) ids).
  { apply set_eq. intros x. unfold pruned.
    rewrite elem_of_difference, elem_of_filter, elem_of_list_to_set,
      list_elem_of_filter, elem_of_elements.
    unfold is_Some. destruct (clients u !! x) as [v|] eqn:E.
    - split; [intros [Hx _]; split; [by exists v|done]|].
      intros [_ Hx]. split; [done|]. by intros [? _].
    - split; [intros [Hx Hn]; destruct Hn; done|].
      by intros [[? ?] _]. }
  cbn [aliases set_aliases users allClients].
  rewrite lookup_insert_eq, Hpr. split; [done|].
  split; [intros other Hne; by rewrite lookup_insert_ne|].
  split; [|done].
  intros id Hin Hnone ids' [= <-]. rewrite elem_of_filter, Hnone.
  intros [[? ?] _]. done.
Qed.

Lemma GetClient_prunes_alias_map_witness :
  Privilege alice ≠ AdminPermissions
  ∧ allClients webRegistry !! "web"%string = None
  ∧ aliases webRegistry !! "web"%string = Some {[ "X"%string ]}
  ∧ aliases (fst (GetClient webRegistry alice "web")) !! "web"%string
    = Some (filter (fun id => is_Some (clients alice !! id)) {[ "X"%string ]}).
Proof.
  assert (H1 : Privilege alice ≠ AdminPermissions) by (by vm_compute).
  assert (H2 : allClients webRegistry !! "web"%string = None) by (by vm_compute).
  assert (H3 : aliases webRegistry !! "web"%string = Some {[ "X"%string ]})
    by (by vm_compute).
  split; [exact H1|]. split; [exact H2|]. split; [exact H3|].
  exact (proj1 (GetClient_prunes_alias_map webRegistry alice "web" _ H1 H2 H3)).
Defined.

(** The pruning is seen by the next caller: root resolves [web] to the
    controllee before alice asks, and to nothing afterwards. *)
Example GetClient_pruning_seen_by_admin :
  snd (GetClient webRegistry root "web") = ClientFound (Some controlleeX)
  ∧ snd (GetClient (fst (GetClient webRegistry alice "web")) root "web")
    = ClientError (ErrAmbiguous 0 "web" []).
Proof. split; by vm_compute. Qed.

Lemma afterCalls_snoc (calls : list Call) (c : Call) :
  afterCalls (calls ++ [c]) = applyCall (afterCalls calls) c.
Proof. unfold afterCalls. by rewrite foldl_app. Qed.

Lemma afterCalls_invariant (calls : list Call) :
  registry_wf (afterCalls calls) ∧ no_controllees (afterCalls calls).
Proof.
  induction calls as [|c calls [IHwf IHnc]] using rev_ind.
  - split; [apply emptyRegistry_wf|]. intros k u H. cbn in H.
    by rewrite lookup_empty in H.
  - rewrite afterCalls_snoc. destruct c as [name conn|conn]; cbn [applyCall].
    + split; [by apply createOrGetUser_wf|].
      unfold CreateOrGetUser. rewrite createOrGetUser_unfold.
      assert (Hn : clients (userOrNew (afterCalls calls) name) = ∅).
      { unfold userOrNew. destruct (users _ !! name) eqn:E; [by eapply IHnc|done]. }
      destruct conn as [c|]; cbn zeta.
      * destruct (withPrivilege_fields (userOrNew (afterCalls calls) name) c)
          as (_ & _ & Hcl).
        destruct (userConnections _ !! _); intros k u; cbn;
          (destruct (decide (name = k)) as [<-|Hne];
           [rewrite lookup_insert_eq; intros [= <-]; cbn; congruence
           |rewrite lookup_insert_ne by done; apply IHnc]).
      * intros k u; cbn. destruct (decide (name = k)) as [<-|Hne].
        -- rewrite lookup_insert_eq. by intros [= <-].
        -- rewrite lookup_insert_ne by done. apply IHnc.
    + split; [by apply DisconnectUser_wf|].
      unfold DisconnectUser. destruct conn as [c|]; [|done].
      destruct (users _ !! sc_user c) as [user|] eqn:Hu; [|exact IHnc].
      intros k u. cbn.
      destruct (len (map_to_list (clients user)) =? 0).
      * intros H. apply lookup_delete_Some in H as [_ H].
        destruct (decide (sc_user c = k)) as [<-|Hne].
        -- rewrite lookup_insert_eq in H. injection H as <-. cbn. by eapply IHnc.
        -- rewrite lookup_insert_ne in H by done. by eapply IHnc.
      * destruct (decide (sc_user c = k)) as [<-|Hne].
        -- rewrite lookup_insert_eq. intros [= <-]. cbn. by eapply IHnc.
        -- rewrite lookup_insert_ne by done. apply IHnc.
Qed.

(** After any sequence of the two operations, a user is in the map exactly
    when the last call that names it is a [CreateOrGetUser]: a
    [DisconnectUser] of any of its connections removes the record, the
    sessions that remain do not keep it. *)
Lemma presence_after_calls (calls : list Call) (name : string) :
  is_Some (users (afterCalls calls) !! name)
  ↔ foldl (presentAfter name) false calls = true.
Proof.
  induction calls as [|c calls IH] using rev_ind.
  - cbn. rewrite lookup_empty. split; [by intros [? ?]|done].
  - rewrite afterCalls_snoc, foldl_app. cbn [foldl].
    destruct (afterCalls_invariant calls) as [Hwf Hnc].
    destruct c as [n conn|[c|]]; cbn [applyCall presentAfter].
    + pose proof (createOrGetUser_present (afterCalls calls) n conn) as Hsome.
      destruct (decide (n = name)) as [->|Hne]; [done|].
      unfold CreateOrGetUser. by rewrite createOrGetUser_other.
    + pose proof (DisconnectUser_presence (afterCalls calls) c Hwf) as Hd.
      destruct (decide (sc_user c = name)) as [<-|Hne].
      * destruct (users (afterCalls calls) !! sc_user c) as [u|] eqn:Hu.
        -- rewrite Hd. rewrite (Hnc _ _ Hu). split; [done|discriminate].
        -- rewrite Hd. split; [by intros [? ?]|discriminate].
      * rewrite <- IH. unfold DisconnectUser.
        destruct (users (afterCalls calls) !! sc_user c) as [user|] eqn:Hu; [|done].
        cbn. rewrite (Hwf _ _ Hu).
        destruct (len (map_to_list (clients user)) =? 0).
        -- by rewrite lookup_delete_ne, lookup_insert_ne.
        -- by rewrite lookup_insert_ne.
    + exact IH.
Qed.

(** ** UTF-8: decoding what was encoded *)

Lemma land_low (m k x : Z) :
  0 <= k → 0 <= x < 2 ^ k → Z.land (m * 2 ^ k) x = 0.
Proof.
  intros Hk Hx.
  assert (Hlow : x = Z.land (Z.ones k) x).
  { rewrite Z.land_comm, Z.land_ones by lia. by rewrite Z.mod_small. }
  rewrite Hlow, Z.land_assoc, Z.land_ones by lia.
  rewrite Z.mod_mul by lia. apply Z.land_0_l.
Qed.

Lemma lor_low (m k x : Z) :
  0 <= k → 0 <= x < 2 ^ k → Z.lor (m * 2 ^ k) x = m * 2 ^ k + x.
Proof.
  intros Hk Hx. pose proof (Z.add_lor_land (m * 2 ^ k) x) as H.
  rewrite land_low in H by done. lia.
Qed.

Lemma land_63 (x : Z) : Z.land x 63 = x mod 64.
Proof. change 63 with (Z.ones 6). by rewrite Z.land_ones. Qed.
Lemma land_31 (x : Z) : Z.land x 31 = x mod 32.
Proof. change 31 with (Z.ones 5). by rewrite Z.land_ones. Qed.
Lemma land_15 (x : Z) : Z.land x 15 = x mod 16.
Proof. change 15 with (Z.ones 4). by rewrite Z.land_ones. Qed.
Lemma land_7 (x : Z) : Z.land x 7 = x mod 8.
Proof. change 7 with (Z.ones 3). by rewrite Z.land_ones. Qed.

Lemma EncodeRune_arith (r : Z) : utf8.EncodeRune r = encodeArith r.
Proof.
  unfold utf8.EncodeRune, encodeArith.
  rewrite !land_63, !Z.shiftr_div_pow2 by lia.
  change (2 ^ 6) with 64. change (2 ^ 12) with 4096. change (2 ^ 18) with 262144.
  assert (H128 : ∀ x, 0 <= x < 64 → Z.lor 128 x = 128 + x).
  { intros x Hx. change 128 with (2 * 2 ^ 6). by apply lor_low. }
  assert (H192 : ∀ x, 0 <= x < 64 → Z.lor 192 x = 192 + x).
  { intros x Hx. change 192 with (3 * 2 ^ 6). by apply lor_low. }
  assert (H224 : ∀ x, 0 <= x < 32 → Z.lor 224 x = 224 + x).
  { intros x Hx. change 224 with (7 * 2 ^ 5). apply lor_low; [lia|]. simpl; lia. }
  assert (H240 : ∀ x, 0 <= x < 16 → Z.lor 240 x = 240 + x).
  { intros x Hx. change 240 with (15 * 2 ^ 4). apply lor_low; [lia|]. simpl; lia. }
  assert (Hm : ∀ x, 0 <= x mod 64 < 64) by (intros; apply Z.mod_pos_bound; lia).
  rewrite !H128 by apply Hm.
  destruct ((0 <=? r) && (r <=? 127)) eqn:E1; [done|].
  destruct ((0 <=? r) && (r <=? 2047)) eqn:E2.
  { rewrite H192; [done|]. zbool. Z.div_mod_to_equations. lia. }
  destruct ((r <? 0) || (utf8.MaxRune <? r) || ((55296 <=? r) && (r <=? 57343))) eqn:E3;
    [done|].
  unfold utf8.MaxRune in E3.
  destruct (r <=? 65535) eqn:E4.
  - rewrite H224; [done|]. zbool. Z.div_mod_to_equations. lia.
  - rewrite H240; [done|]. zbool. Z.div_mod_to_equations. lia.
Qed.

Ltac decide_tests :=
  repeat match goal with
         | |- context [if ?a <? ?b then _ else _] =>
             first [ replace (a <? b) with true by (symmetry; zbool; lia)
                   | replace (a <? b) with false by (symmetry; zbool; lia) ]
         | |- context [if ?a <=? ?b then _ else _] =>
             first [ replace (a <=? b) with true by (symmetry; zbool; lia)
                   | replace (a <=? b) with false by (symmetry; zbool; lia) ]
         | |- context [if ?a =? ?b then _ else _] =>
             first [ replace (a =? b) with true by (symmetry; zbool; lia)
                   | replace (a =? b) with false by (symmetry; zbool; lia) ]
         | |- context [if ?a >=? ?b then _ else _] =>
             first [ replace (a >=? b) with true by (symmetry; zbool; lia)
                   | replace (a >=? b) with false by (symmetry; zbool; lia) ]
         | |- context [if (?a <? ?b) || (?c <? ?d) then _ else _] =>
             replace ((a <? b) || (c <? d)) with false by (symmetry; zbool; lia)
         end.

Lemma len_cons {A} (x : A) (l : list A) : len (x :: l) = 1 + len l.
Proof. unfold len. cbn [length]. lia. Qed.

Lemma len_nonneg {A} (l : list A) : 0 <= len l.
Proof. unfold len. lia. Qed.

Lemma DecodeRune_1 (p0 : Z) (rest : list Z) :
  0 <= p0 <= 127 → utf8.DecodeRune (p0 :: rest) = (p0, 1%nat).
Proof.
  intros H. unfold utf8.DecodeRune, utf8.first. decide_tests. reflexivity.
Qed.

Ltac eval_first :=
  decide_tests;
  repeat match goal with
         | |- context [Z.land (Zpos ?a) 7] =>
             let v := eval vm_compute in (Z.land (Zpos a) 7) in
             change (Z.land (Zpos a) 7) with v
         | |- context [utf8.acceptRanges (Z.shiftr ?a 4)] =>
             let v := eval vm_compute in (utf8.acceptRanges (Z.shiftr a 4)) in
             change (utf8.acceptRanges (Z.shiftr a 4)) with v
         end;
  cbv beta iota zeta; cbn [at_ nth]; unfold utf8.locb, utf8.hicb; decide_tests.

Lemma DecodeRune_2 (p0 b1 : Z) (rest : list Z) :
  194 <= p0 <= 223 → 128 <= b1 <= 191 →
  utf8.DecodeRune (p0 :: b1 :: rest) = ((p0 mod 32) * 64 + b1 mod 64, 2%nat).
Proof.
  intros H0 H1. unfold utf8.DecodeRune, utf8.first.
  rewrite !len_cons. pose proof (len_nonneg rest).
  eval_first.
  rewrite land_31, land_63, Z.shiftl_mul_pow2 by lia.
  rewrite lor_low; [done|lia|]. change (2 ^ 6) with 64. apply Z.mod_pos_bound. lia.
Qed.

Lemma DecodeRune_3 (p0 b1 b2 : Z) (rest : list Z) :
  224 <= p0 <= 239 →
  (if p0 =? 224 then 160 else 128) <= b1 <= (if p0 =? 237 then 159 else 191) →
  128 <= b2 <= 191 →
  utf8.DecodeRune (p0 :: b1 :: b2 :: rest)
  = ((p0 mod 16) * 4096 + (b1 mod 64) * 64 + b2 mod 64, 3%nat).
Proof.
  intros H0 H1 H2.
  assert (Hres : Z.lor (Z.lor (Z.shiftl (Z.land p0 15) 12) (Z.shiftl (Z.land b1 63) 6))
                       (Z.land b2 63)
                 = (p0 mod 16) * 4096 + (b1 mod 64) * 64 + b2 mod 64).
  { rewrite land_15, !land_63, !Z.shiftl_mul_pow2 by lia.
    pose proof (Z.mod_pos_bound b1 64). pose proof (Z.mod_pos_bound b2 64).
    change (2 ^ 12) with 4096. change (2 ^ 6) with 64.
    replace (p0 mod 16 * 4096) with ((p0 mod 16) * 2 ^ 12) by (change (2 ^ 12) with 4096; lia).
    rewrite (lor_low (p0 mod 16) 12) by (change (2 ^ 12) with 4096; lia).
    replace ((p0 mod 16) * 2 ^ 12 + b1 mod 64 * 64)
      with (((p0 mod 16) * 64 + b1 mod 64) * 2 ^ 6) by (change (2 ^ 12) with 4096; change (2 ^ 6) with 64; lia).
    rewrite lor_low by (change (2 ^ 6) with 64; lia).
    change (2 ^ 12) with 4096. change (2 ^ 6) with 64. lia. }
  unfold utf8.DecodeRune, utf8.first.
  rewrite !len_cons. pose proof (len_nonneg rest).
  revert H1.
  destruct (p0 =? 224) eqn:E1; destruct (p0 =? 237) eqn:E2; intros H1; zbool;
    try lia.
  - eval_first. by rewrite Hres.
  - eval_first. by rewrite Hres.
  - destruct (decide (p0 <= 236)); eval_first; by rewrite Hres.
Qed.

Lemma DecodeRune_4 (p0 b1 b2 b3 : Z) (rest : list Z) :
  240 <= p0 <= 244 →
  (if p0 =? 240 then 144 else 128) <= b1 <= (if p0 =? 244 then 143 else 191) →
  128 <= b2 <= 191 → 128 <= b3 <= 191 →
  utf8.DecodeRune (p0 :: b1 :: b2 :: b3 :: rest)
  = ((p0 mod 8) * 262144 + (b1 mod 64) * 4096 + (b2 mod 64) * 64 + b3 mod 64, 4%nat).
Proof.
  intros H0 H1 H2 H3.
  assert (Hres : Z.lor (Z.lor (Z.lor (Z.shiftl (Z.land p0 7) 18)
                                     (Z.shiftl (Z.land b1 63) 12))
                              (Z.shiftl (Z.land b2 63) 6))
                       (Z.land b3 63)
                 = (p0 mod 8) * 262144 + (b1 mod 64) * 4096 + (b2 mod 64) * 64 + b3 mod 64).
  { rewrite land_7, !land_63, !Z.shiftl_mul_pow2 by lia.
    pose proof (Z.mod_pos_bound b1 64). pose proof (Z.mod_pos_bound b2 64).
    pose proof (Z.mod_pos_bound b3 64).
    assert (P18 : 2 ^ 18 = 262144) by reflexivity.
    assert (P12 : 2 ^ 12 = 4096) by reflexivity.
    assert (P6 : 2 ^ 6 = 64) by reflexivity.
    rewrite (lor_low (p0 mod 8) 18) by lia.
    replace ((p0 mod 8) * 2 ^ 18 + b1 mod 64 * 2 ^ 12)
      with (((p0 mod 8) * 64 + b1 mod 64) * 2 ^ 12) by lia.
    rewrite (lor_low _ 12) by lia.
    replace (((p0 mod 8) * 64 + b1 mod 64) * 2 ^ 12 + b2 mod 64 * 2 ^ 6)
      with ((((p0 mod 8) * 64 + b1 mod 64) * 64 + b2 mod 64) * 2 ^ 6) by lia.
    rewrite (lor_low _ 6) by lia. lia. }
  unfold utf8.DecodeRune, utf8.first.
  rewrite !len_cons. pose proof (len_nonneg rest).
  revert H1.
  destruct (p0 =? 240) eqn:E1; destruct (p0 =? 244) eqn:E2; intros H1; zbool;
    try lia; eval_first; by rewrite Hres.
Qed.

(** Decoding the encoding of a rune, whatever follows it, gives the rune
    back (U+FFFD for a value that is no Unicode scalar) and its width. *)
Lemma DecodeRune_EncodeRune (r : Z) (rest : list Z) :
  utf8.DecodeRune (utf8.EncodeRune r ++ rest)
  = (sanitize r, length (utf8.EncodeRune r)).
Proof.
  rewrite EncodeRune_arith. unfold encodeArith, sanitize, utf8.MaxRune.
  destruct ((0 <=? r) && (r <=? 127)) eqn:E1.
  { cbn [app length]. rewrite DecodeRune_1 by (zbool; lia).
    replace ((r <? 0) || (1114111 <? r) || ((55296 <=? r) && (r <=? 57343)))
      with false by (symmetry; zbool; lia). done. }
  destruct ((0 <=? r) && (r <=? 2047)) eqn:E2.
  { cbn [app length].
    rewrite DecodeRune_2 by (zbool; Z.div_mod_to_equations; lia).
    replace ((r <? 0) || (1114111 <? r) || ((55296 <=? r) && (r <=? 57343)))
      with false by (symmetry; zbool; lia).
    f_equal. zbool. Z.div_mod_to_equations. lia. }
  destruct ((r <? 0) || (1114111 <? r) || ((55296 <=? r) && (r <=? 57343))) eqn:E3.
  { cbn [app length]. rewrite DecodeRune_3 by (cbn; lia). reflexivity. }
  destruct (r <=? 65535) eqn:E4.
  - cbn [app length].
    assert (Hr : 2048 <= r <= 65535 ∧ ¬ (55296 <= r <= 57343)) by (zbool; lia).
    rewrite DecodeRune_3.
    + f_equal. Z.div_mod_to_equations. lia.
    + Z.div_mod_to_equations. lia.
    + destruct (224 + r / 4096 =? 224) eqn:Ea; destruct (224 + r / 4096 =? 237) eqn:Eb;
        zbool; Z.div_mod_to_equations; lia.
    + Z.div_mod_to_equations. lia.
  - cbn [app length].
    assert (Hr : 65536 <= r <= 1114111) by (zbool; lia).
    rewrite DecodeRune_4.
    + f_equal. Z.div_mod_to_equations. lia.
    + Z.div_mod_to_equations. lia.
    + destruct (240 + r / 262144 =? 240) eqn:Ea; destruct (240 + r / 262144 =? 244) eqn:Eb;
        zbool; Z.div_mod_to_equations; lia.
    + Z.div_mod_to_equations. lia.
    + Z.div_mod_to_equations. lia.
Qed.

Lemma EncodeRune_bytes (r : Z) :
  Forall (fun b => 0 <= b < 256) (utf8.EncodeRune r).
Proof.
  rewrite EncodeRune_arith. unfold encodeArith, utf8.MaxRune.
  repeat case_match; repeat constructor; zbool; Z.div_mod_to_equations; lia.
Qed.

Lemma EncodeRune_length (r : Z) : (1 <= length (utf8.EncodeRune r))%nat.
Proof.
  rewrite EncodeRune_arith. unfold encodeArith.
  repeat case_match; cbn [length]; lia.
Qed.

Lemma encode_cons (r : Z) (rs : list Z) :
  utf8.encode (r :: rs) = utf8.EncodeRune r ++ utf8.encode rs.
Proof. reflexivity. Qed.

Lemma decode_fuel_step (fuel : nat) (r : Z) (rest : list Z) :
  utf8.decode_fuel (S fuel) (utf8.EncodeRune r ++ rest)
  = sanitize r :: utf8.decode_fuel fuel rest.
Proof.
  pose proof (EncodeRune_length r) as Hlen.
  cbn [utf8.decode_fuel].
  rewrite DecodeRune_EncodeRune, Nat.max_r by lia.
  rewrite drop_app_length.
  destruct (utf8.EncodeRune r ++ rest) as [|b0 bs] eqn:Eb; [|done].
  apply (f_equal length) in Eb. rewrite length_app in Eb. cbn in Eb. lia.
Qed.

Lemma decode_fuel_encode (rs rest : list Z) (fuel : nat) :
  (length rs <= fuel)%nat →
  utf8.decode_fuel fuel (utf8.encode rs ++ rest)
  = (sanitize <$> rs) ++ utf8.decode_fuel (fuel - length rs) rest.
Proof.
  revert fuel. induction rs as [|r rs IH]; intros fuel Hfuel.
  - cbn. by rewrite Nat.sub_0_r.
  - cbn [length] in Hfuel. destruct fuel as [|fuel]; [lia|].
    rewrite encode_cons, <- app_assoc, decode_fuel_step.
    rewrite IH by lia. reflexivity.
Qed.

Lemma encode_length (rs : list Z) : (length rs <= length (utf8.encode rs))%nat.
Proof.
  induction rs as [|r rs IH]; [done|].
  rewrite encode_cons, length_app. pose proof (EncodeRune_length r).
  cbn [length]. lia.
Qed.

(** [[]rune(string(rs))] is [rs], with U+FFFD for what is no scalar. *)
Lemma decode_encode (rs : list Z) :
  utf8.decode (utf8.encode rs) = sanitize <$> rs.
Proof.
  unfold utf8.decode.
  pose proof (decode_fuel_encode rs [] (length (utf8.encode rs))) as H.
  rewrite !app_nil_r in H. rewrite H by apply encode_length.
  destruct (_ - _)%nat; cbn; by rewrite app_nil_r.
Qed.

Lemma byte_ascii_byte (b : Z) : 0 <= b < 256 → byte_of_ascii (ascii_of_byte b) = b.
Proof.
  intros H. unfold byte_of_ascii, ascii_of_byte.
  rewrite N_ascii_embedding; [lia|].
  change 256%N with (Z.to_N 256). lia.
Qed.

Lemma bytes_of_string_of_bytes (b : list Z) :
  Forall (fun x => 0 <= x < 256) b → bytes_of_string (string_of_bytes b) = b.
Proof.
  intros H. unfold bytes_of_string, string_of_bytes.
  rewrite list_ascii_of_string_of_list_ascii, <- list_fmap_compose.
  induction H as [|x l Hx _ IH]; [done|].
  cbn [fmap list_fmap compose]. rewrite byte_ascii_byte by done.
  f_equal. exact IH.
Qed.

Lemma encode_bytes (rs : list Z) :
  Forall (fun x => 0 <= x < 256) (utf8.encode rs).
Proof.
  unfold utf8.encode. induction rs as [|r rs IH]; [constructor|].
  cbn [fmap list_fmap concat]. apply Forall_app. split; [apply EncodeRune_bytes|done].
Qed.

(** The runes of the string of a rune slice. *)
Lemma runes_of_string_of_runes (rs : list Z) :
  runes_of_string (string_of_runes rs) = sanitize <$> rs.
Proof.
  unfold runes_of_string, string_of_runes.
  rewrite bytes_of_string_of_bytes by apply encode_bytes.
  apply decode_encode.
Qed.

Lemma IsSpace_sanitize (r : Z) : IsSpace r = false → IsSpace (sanitize r) = false.
Proof.
  unfold sanitize. destruct (_ || _); [reflexivity|done].
Qed.

Lemma string_of_runes_empty (rs : list Z) :
  string_of_runes rs = EmptyString → rs = [].
Proof.
  intros H. apply (f_equal runes_of_string) in H.
  rewrite runes_of_string_of_runes in H. by destruct rs.
Qed.

(** ** The editor: painting *)

(** Reading the fields of a terminal, given by its fields, after
    assignments. *)
Ltac fields :=
  cbv [set_AutoCompleteCallback set_prompt set_line set_pos set_echo
    set_pasteActive set_cursorX set_cursorY set_maxLine set_termWidth
    set_termHeight set_outBuf set_remainder set_history set_historyIndex
    set_historyPending set_autoCompleteIndex set_autoCompletePos
    set_autoCompletePendng set_autoCompleting set_functions
    set_functionsAutoComplete set_autoCompleteValues set_raw set_rawOverflow
    set_c_in set_c_out AutoCompleteCallback prompt line pos echo pasteActive
    cursorX cursorY maxLine termWidth termHeight outBuf remainder history
    historyIndex historyPending autoCompleteIndex autoCompletePos
    autoCompletePendng autoCompleting functions functionsAutoComplete
    autoCompleteValues raw rawOverflow c_in c_out].

Lemma display_refl (t : Terminal) : display_only t t.
Proof. by destruct t. Qed.

Lemma display_trans (t2 t1 t : Terminal) :
  display_only t2 t1 → display_only t1 t → display_only t2 t.
Proof.
  unfold display_only. destruct t2, t1, t. fields.
  intros H1 H2. injection H1 as ->. injection H2 as ->. subst. reflexivity.
Qed.

Ltac split_ifs :=
  repeat match goal with
         | |- context [if ?c then _ else _] => destruct c
         end.

Lemma display_queue d t : display_only (queue d t) t.
Proof. by destruct t. Qed.

Lemma display_move u d l r t : display_only (move u d l r t) t.
Proof. apply display_queue. Qed.

Lemma display_clearLineToRight t : display_only (clearLineToRight t) t.
Proof. apply display_queue. Qed.

Lemma display_advanceCursor p t : display_only (advanceCursor p t) t.
Proof.
  destruct t. unfold display_only, advanceCursor. fields. split_ifs; reflexivity.
Qed.

Lemma display_moveCursorToPos p t : display_only (moveCursorToPos p t) t.
Proof.
  destruct t. unfold display_only, moveCursorToPos, move, queue. fields.
  split_ifs; reflexivity.
Qed.

Lemma display_writeLine_loop fuel l t : display_only (writeLine_loop fuel l t) t.
Proof.
  revert l t. induction fuel as [|fuel IH]; intros l t; [apply display_refl|].
  cbn [writeLine_loop]. cbn zeta.
  destruct (len l =? 0); [apply display_refl|].
  match goal with |- context [if ?c then _ else _] => destruct c end;
    [apply display_refl|].
  eapply display_trans; [apply IH|].
  eapply display_trans; [apply display_advanceCursor|apply display_queue].
Qed.

Lemma display_writeLine l t : display_only (writeLine l t) t.
Proof. apply display_writeLine_loop. Qed.

Lemma display_iter n (f : Terminal -> Terminal) t :
  (∀ t, display_only (f t) t) → display_only (Nat.iter n f t) t.
Proof.
  intros Hf. induction n as [|n IH]; [apply display_refl|].
  rewrite Nat.iter_succ. eapply display_trans; [apply Hf|exact IH].
Qed.

(** What painting leaves alone, field by field. *)
Section DisplayFields.
Context (t' t : Terminal) (H : display_only t' t).

Ltac by_display := rewrite H; by destruct t.

Lemma AutoCompleteCallback_of : AutoCompleteCallback t' = AutoCompleteCallback t. Proof. by_display. Qed.
Lemma prompt_of : prompt t' = prompt t. Proof. by_display. Qed.
Lemma line_of : line t' = line t. Proof. by_display. Qed.
Lemma pos_of : pos t' = pos t. Proof. by_display. Qed.
Lemma echo_of : echo t' = echo t. Proof. by_display. Qed.
Lemma pasteActive_of : pasteActive t' = pasteActive t. Proof. by_display. Qed.
Lemma termWidth_of : termWidth t' = termWidth t. Proof. by_display. Qed.
Lemma termHeight_of : termHeight t' = termHeight t. Proof. by_display. Qed.
Lemma remainder_of : remainder t' = remainder t. Proof. by_display. Qed.
Lemma history_of : history t' = history t. Proof. by_display. Qed.
Lemma historyIndex_of : historyIndex t' = historyIndex t. Proof. by_display. Qed.
Lemma historyPending_of : historyPending t' = historyPending t. Proof. by_display. Qed.
Lemma autoCompleteIndex_of : autoCompleteIndex t' = autoCompleteIndex t. Proof. by_display. Qed.
Lemma autoCompletePos_of : autoCompletePos t' = autoCompletePos t. Proof. by_display. Qed.
Lemma autoCompletePendng_of : autoCompletePendng t' = autoCompletePendng t. Proof. by_display. Qed.
Lemma autoCompleting_of : autoCompleting t' = autoCompleting t. Proof. by_display. Qed.
Lemma functions_of : functions t' = functions t. Proof. by_display. Qed.
Lemma functionsAutoComplete_of : functionsAutoComplete t' = functionsAutoComplete t. Proof. by_display. Qed.
Lemma autoCompleteValues_of : autoCompleteValues t' = autoCompleteValues t. Proof. by_display. Qed.
Lemma raw_of : raw t' = raw t. Proof. by_display. Qed.
Lemma rawOverflow_of : rawOverflow t' = rawOverflow t. Proof. by_display. Qed.
Lemma c_in_of : c_in t' = c_in t. Proof. by_display. Qed.
Lemma c_out_of : c_out t' = c_out t. Proof. by_display. Qed.
End DisplayFields.

(** Rewriting with the lemmas above, for a step [H] of painting. *)
Ltac frame_with H :=
  rewrite ?(AutoCompleteCallback_of _ _ H), ?(prompt_of _ _ H), ?(line_of _
    _ H), ?(pos_of _ _ H), ?(echo_of _ _ H), ?(pasteActive_of _ _ H),
    ?(termWidth_of _ _ H), ?(termHeight_of _ _ H), ?(remainder_of _ _ H),
    ?(history_of _ _ H), ?(historyIndex_of _ _ H), ?(historyPending_of _ _
    H), ?(autoCompleteIndex_of _ _ H), ?(autoCompletePos_of _ _ H),
    ?(autoCompletePendng_of _ _ H), ?(autoCompleting_of _ _ H),
    ?(functions_of _ _ H), ?(functionsAutoComplete_of _ _ H),
    ?(autoCompleteValues_of _ _ H), ?(raw_of _ _ H), ?(rawOverflow_of _ _
    H), ?(c_in_of _ _ H), ?(c_out_of _ _ H).

Ltac frame :=
  repeat match goal with
         | |- context [queue ?d ?t] => progress frame_with (display_queue d t)
         | |- context [move ?u ?d ?l ?r ?t] =>
             progress frame_with (display_move u d l r t)
         | |- context [clearLineToRight ?t] =>
             progress frame_with (display_clearLineToRight t)
         | |- context [advanceCursor ?p ?t] =>
             progress frame_with (display_advanceCursor p t)
         | |- context [moveCursorToPos ?p ?t] =>
             progress frame_with (display_moveCursorToPos p t)
         | |- context [writeLine_loop ?n ?l ?t] =>
             progress frame_with (display_writeLine_loop n l t)
         | |- context [writeLine ?l ?t] =>
             progress frame_with (display_writeLine l t)
         end.

(** Reading a field after an assignment to another one. *)
Ltac assigned :=
  cbn [set_AutoCompleteCallback set_prompt set_line set_pos set_echo
    set_pasteActive set_cursorX set_cursorY set_maxLine set_termWidth
    set_termHeight set_outBuf set_remainder set_history set_historyIndex
    set_historyPending set_autoCompleteIndex set_autoCompletePos
    set_autoCompletePendng set_autoCompleting set_functions
    set_functionsAutoComplete set_autoCompleteValues set_raw set_rawOverflow
    set_c_in set_c_out AutoCompleteCallback prompt line pos echo pasteActive
    cursorX cursorY maxLine termWidth termHeight outBuf remainder history
    historyIndex historyPending autoCompleteIndex autoCompletePos
    autoCompletePendng autoCompleting functions functionsAutoComplete
    autoCompleteValues raw rawOverflow c_in c_out].

(** ** The editor: the cursor stays on the row *)

Lemma visualLength_from_nonneg (b : bool) (l : list Z) : 0 <= visualLength_from b l.
Proof.
  revert b. induction l as [|r l IH]; intros b; cbn [visualLength_from]; [lia|].
  destruct b; [apply IH|].
  destruct (r =? 27); [apply IH|]. specialize (IH false). lia.
Qed.

Lemma visualLength_nonneg (l : list Z) : 0 <= visualLength l.
Proof. apply visualLength_from_nonneg. Qed.

Lemma cursorX_advanceCursor (p : Z) (t : Terminal) :
  cursorX (advanceCursor p t) = Z.rem (cursorX t + p) (termWidth t).
Proof. destruct t. unfold advanceCursor. fields. split_ifs; reflexivity. Qed.

(** [advanceCursor] by a count that is not negative leaves the cursor on
    the row. *)
Lemma advanceCursor_cursor_ok (p : Z) (t : Terminal) :
  0 < termWidth t → 0 <= cursorX t → 0 <= p → cursor_ok (advanceCursor p t).
Proof.
  intros Hw Hx Hp. unfold cursor_ok.
  rewrite cursorX_advanceCursor, (termWidth_of _ _ (display_advanceCursor p t)).
  pose proof (Z.rem_bound_pos (cursorX t + p) (termWidth t)). lia.
Qed.

Lemma writeLine_loop_rounds (fuel : nat) (l : list Z) (t : Terminal) :
  (length l ≤ fuel)%nat → cursor_ok t →
  writeLine_rounds l t (writeLine_loop fuel l t)
  ∧ cursor_ok (writeLine_loop fuel l t).
Proof.
  revert l t. induction fuel as [|fuel IH]; intros l t Hl Hc.
  - destruct l; [|cbn in Hl; lia]. split; [constructor|exact Hc].
  - cbn [writeLine_loop]. cbn zeta.
    destruct (len l =? 0) eqn:E0.
    + apply Z.eqb_eq in E0. destruct l; [|unfold len in E0; cbn [length] in E0; lia].
      split; [constructor|exact Hc].
    + set (todo := if len l >? termWidth t - cursorX t
                   then termWidth t - cursorX t else len l).
      assert (Hpos : 0 < todo ≤ len l).
      { unfold todo, cursor_ok, len in *.
        destruct (_ >? _) eqn:E; zbool; lia. }
      destruct (todo <=? 0) eqn:E1; [zbool; lia|].
      assert (Hq : cursor_ok
                     (advanceCursor (visualLength (take (Z.to_nat todo) l))
                        (queue (take (Z.to_nat todo) l) t))).
      { unfold cursor_ok in Hc. apply advanceCursor_cursor_ok.
        - rewrite (termWidth_of _ _ (display_queue _ t)). lia.
        - change (cursorX (queue ?d t)) with (cursorX t). lia.
        - apply visualLength_nonneg. }
      assert (Hd : (length (drop (Z.to_nat todo) l) ≤ fuel)%nat).
      { rewrite length_drop. unfold len in Hpos. lia. }
      destruct (IH _ _ Hd Hq) as [Hr Hok].
      split; [|exact Hok].
      eapply writeLine_round; [zbool; lia| |exact Hr]. fold todo. lia.
Qed.

(** With the cursor on the row, [writeLine] of the model is the run of the
    loop of Go, whose rounds all write at least one rune, and it leaves the
    cursor on the row. *)
Lemma writeLine_rounds_ok (l : list Z) (t : Terminal) :
  cursor_ok t → writeLine_rounds l t (writeLine l t) ∧ cursor_ok (writeLine l t).
Proof. intros Hc. by apply writeLine_loop_rounds. Qed.

(** The loop of Go has one result. *)
Lemma writeLine_rounds_det (l : list Z) (t t1 t2 : Terminal) :
  writeLine_rounds l t t1 → writeLine_rounds l t t2 → t1 = t2.
Proof.
  intros H1. revert t2. induction H1 as [t|l t t' Hl rem todo Ht H1 IH]; intros t2 H2.
  - inversion H2; subst; [reflexivity|]. by unfold len in *.
  - inversion H2; subst; [by unfold len in *|]. by apply IH.
Qed.

(** ** The editor: resizing *)
(** The bytes [clearAndRepaintLinePlusNPrevious] queues before it paints:
    up to the first row and left to the first column, a clear-to-end-of-line,
    then [n] times down one row and clear, and up again by [n] rows. *)
Definition clearing (n : nat) (x y : Z) : list Z :=
  utf8.encode (moveSeq y 65 ++ moveSeq x 68)
  ++ [27; 91; 75]
  ++ concat (replicate n [27; 91; 66; 27; 91; 75])
  ++ utf8.encode (moveSeq (Z.of_nat n) 65).

Lemma encode_app (a b : list Z) :
  utf8.encode (a ++ b) = utf8.encode a ++ utf8.encode b.
Proof. unfold utf8.encode. by rewrite fmap_app, concat_app. Qed.

Lemma clear_rows (n : nat) (t : Terminal) :
  Nat.iter n (fun t => clearLineToRight (set_cursorY (cursorY t + 1) (move 0 1 0 0 t))) t
  = set_outBuf (outBuf t ++ concat (replicate n [27; 91; 66; 27; 91; 75]))
      (set_cursorY (cursorY t + Z.of_nat n) t).
Proof.
  induction n as [|n IH].
  - cbn [Nat.iter nat_rect replicate concat Z.of_nat].
    rewrite app_nil_r, Z.add_0_r. by destruct t.
  - rewrite Nat.iter_succ, IH.
    rewrite replicate_S_end, concat_app, Nat2Z.inj_succ.
    destruct t. unfold clearLineToRight, move, queue. fields.
    f_equal; [lia|].
    rewrite <- !app_assoc. reflexivity.
Qed.

Lemma clear_all_rows (n : nat) (t : Terminal) :
  (let x := clearLineToRight
              (set_cursorY 0 (set_cursorX 0 (move (cursorY t) 0 (cursorX t) 0 t))) in
   let y := set_outBuf (outBuf x ++ concat (replicate n [27; 91; 66; 27; 91; 75]))
              (set_cursorY (cursorY x + Z.of_nat n) x) in
   set_cursorY 0 (set_cursorX 0 (move (cursorY y) 0 0 0 y)))
  = set_outBuf (outBuf t ++ clearing n (cursorX t) (cursorY t))
      (set_cursorY 0 (set_cursorX 0 t)).
Proof.
  destruct t. unfold clearLineToRight, move, queue, clearing. fields.
  f_equal.
  change (moveSeq 0 66) with (@nil Z). change (moveSeq 0 67) with (@nil Z).
  change (moveSeq 0 68) with (@nil Z). cbn [app].
  rewrite ?app_nil_r, ?Z.add_0_l, <- ?app_assoc. reflexivity.
Qed.

(** [clearAndRepaintLinePlusNPrevious(n)] clears the current row and [n]
    rows below the first one, returns to the first row, and paints the
    prompt and the line from there. *)
Lemma clearAndRepaint_paints (n : Z) (t : Terminal) :
  clearAndRepaintLinePlusNPrevious n t
  = moveCursorToPos (pos t)
      (writeLine (line t)
         (advanceCursor (visualLength (prompt t))
            (queue (prompt t)
               (set_outBuf (outBuf t ++ clearing (Z.to_nat n) (cursorX t) (cursorY t))
                  (set_cursorY 0 (set_cursorX 0 t)))))).
Proof.
  unfold clearAndRepaintLinePlusNPrevious. rewrite clear_rows. cbn zeta.
  pose proof (clear_all_rows (Z.to_nat n) t) as Hc. cbn zeta in Hc. rewrite Hc.
  frame. assigned. reflexivity.
Qed.

(** C7 fails as stated: with an empty line buffer but the prompt on the
    screen, a change of width clears the row and paints the prompt again. *)
Lemma SetSize_repaints_prompt_of_empty_line :
  let t := promptShown (NewTerminal [] "> ") in
  line t = []
  ∧ termWidth t = 80
  ∧ c_out (SetSize 40 24 t)
    = c_out t ++ [27; 91; 50; 68; 27; 91; 75; 62; 32]
  ∧ SetSize 40 24 t ≠ set_termHeight 24 (set_termWidth 40 t).
Proof.
  cbn zeta. split; [reflexivity|]. split; [reflexivity|].
  split; [by vm_compute|].
  intros H. apply (f_equal c_out) in H. vm_compute in H. discriminate H.
Qed.

(** In [clearAndRepaintLinePlusNPrevious] the line is written after the
    prompt, from the first column: with a width above 0 the cursor is on
    the row there. *)
Lemma prompted_cursor_ok (o : list Z) (t : Terminal) :
  0 < termWidth t →
  cursor_ok
    (advanceCursor (visualLength (prompt t))
       (queue (prompt t) (set_outBuf o (set_cursorY 0 (set_cursorX 0 t))))).
Proof.
  intros Hw. apply advanceCursor_cursor_ok.
  - by destruct t.
  - by destruct t.
  - apply visualLength_nonneg.
Qed.

(** C7, as the code has it, for a width that is not negative. A width of 0
    is taken as 1. When the width does not change, or when the line buffer
    is empty and the cursor is at the origin (no prompt on the screen),
    only the two sizes are recorded: nothing is queued or written. When
    the width shrinks, [cursorX] is clamped below the new width, [cursorY]
    is doubled, and the current row and [maxLine * 2] further rows are
    cleared and the prompt and the line painted again; when it grows, the
    same with [maxLine] rows and the cursor as it is. The output is written
    to the channel at once. The line is painted by the loop of [writeLine]
    with the cursor on the row, each round of which writes. *)
Theorem SetSize_cases (t : Terminal) (width height : Z) :
  0 <= width →
  let w := if width =? 0 then 1 else width in
  let sized := set_termHeight height (set_termWidth w t) in
  let prompted (n : Z) (t : Terminal) :=
    advanceCursor (visualLength (prompt t))
      (queue (prompt t)
         (set_outBuf (outBuf t ++ clearing (Z.to_nat n) (cursorX t) (cursorY t))
            (set_cursorY 0 (set_cursorX 0 t)))) in
  let repaint (n : Z) (t : Terminal) :=
    flush (moveCursorToPos (pos t) (writeLine (line t) (prompted n t))) in
  SetSize 0 height t = SetSize 1 height t
  ∧ SetSize width height t =
      (if (w =? termWidth t)
          || ((len (line t) =? 0) && (cursorX t =? 0) && (cursorY t =? 0))
       then sized
       else if w <? termWidth t then
         repaint (maxLine t * 2)
           (set_cursorY (cursorY t * 2)
              (set_cursorX (if cursorX t >=? w then w - 1 else cursorX t) sized))
       else repaint (maxLine t) sized)
  ∧ ∀ (n x y : Z),
      let s := set_cursorY y (set_cursorX x sized) in
      writeLine_rounds (line s) (prompted n s) (writeLine (line s) (prompted n s)).
Proof.
  intros Hw. cbn zeta. split; [reflexivity|]. split.
  - unfold SetSize. rewrite <- !clearAndRepaint_paints.
    set (w := if width =? 0 then 1 else width).
    destruct t. fields.
    destruct (w =? _) eqn:E1; [reflexivity|]. cbn [orb].
    destruct ((len _ =? 0) && _ && _) eqn:E2; [reflexivity|].
    destruct (w <? _) eqn:E3.
    + destruct (_ >=? w); reflexivity.
    + destruct (w >? _) eqn:E4; [reflexivity|]. zbool. lia.
  - intros n x y. apply writeLine_rounds_ok, prompted_cursor_ok.
    destruct t. fields. destruct (width =? 0) eqn:E; zbool; lia.
Qed.

(** The theorem at a resize from 80 to 40 columns with the prompt on the
    screen. *)
Lemma SetSize_cases_witness :
  0 <= 40
  ∧ c_out (SetSize 40 24 (promptShown (NewTerminal [] "> ")))
    = c_out (promptShown (NewTerminal [] "> "))
      ++ [27; 91; 50; 68; 27; 91; 75; 62; 32].
Proof.
  split; [lia|].
  pose proof (SetSize_cases (promptShown (NewTerminal [] "> ")) 40 24
                ltac:(lia)) as H.
  cbn zeta in H. destruct H as (_ & -> & _). by vm_compute.
Defined.

(** ** The editor: what the keys leave alone *)

(** A field that painting and the assignments of [handleKey] leave alone
    is the same after a key as before. The history and the channel are
    such fields: only [readLine] adds to the history and reads the
    channel. *)
Section Kept.

Context {A : Type} (kept : Terminal -> A).

Hypothesis kept_display : ∀ t' t, display_only t' t → kept t' = kept t.
Hypothesis kept_line : ∀ v t, kept (set_line v t) = kept t.
Hypothesis kept_pos : ∀ v t, kept (set_pos v t) = kept t.
Hypothesis kept_cursorX : ∀ v t, kept (set_cursorX v t) = kept t.
Hypothesis kept_cursorY : ∀ v t, kept (set_cursorY v t) = kept t.
Hypothesis kept_maxLine : ∀ v t, kept (set_maxLine v t) = kept t.
Hypothesis kept_pasteActive : ∀ v t, kept (set_pasteActive v t) = kept t.
Hypothesis kept_historyIndex : ∀ v t, kept (set_historyIndex v t) = kept t.
Hypothesis kept_historyPending : ∀ v t, kept (set_historyPending v t) = kept t.
Hypothesis kept_autoCompleteIndex : ∀ v t, kept (set_autoCompleteIndex v t) = kept t.
Hypothesis kept_autoCompletePos : ∀ v t, kept (set_autoCompletePos v t) = kept t.
Hypothesis kept_autoCompletePendng : ∀ v t, kept (set_autoCompletePendng v t) = kept t.
Hypothesis kept_autoCompleting : ∀ v t, kept (set_autoCompleting v t) = kept t.

Ltac kept_step :=
  first
    [ rewrite kept_line | rewrite kept_pos | rewrite kept_cursorX
    | rewrite kept_cursorY | rewrite kept_maxLine | rewrite kept_pasteActive
    | rewrite kept_historyIndex | rewrite kept_historyPending
    | rewrite kept_autoCompleteIndex | rewrite kept_autoCompletePos
    | rewrite kept_autoCompletePendng | rewrite kept_autoCompleting
    | match goal with
      | |- context [kept (queue ?d ?t)] =>
          rewrite (kept_display _ _ (display_queue d t))
      | |- context [kept (move ?u ?d ?l ?r ?t)] =>
          rewrite (kept_display _ _ (display_move u d l r t))
      | |- context [kept (advanceCursor ?p ?t)] =>
          rewrite (kept_display _ _ (display_advanceCursor p t))
      | |- context [kept (moveCursorToPos ?p ?t)] =>
          rewrite (kept_display _ _ (display_moveCursorToPos p t))
      | |- context [kept (writeLine ?l ?t)] =>
          rewrite (kept_display _ _ (display_writeLine l t))
      end ].

Lemma kept_iter n (f : Terminal -> Terminal) t :
  (∀ t, kept (f t) = kept t) → kept (Nat.iter n f t) = kept t.
Proof.
  intros Hf. induction n as [|n IH]; [reflexivity|].
  by rewrite Nat.iter_succ, Hf.
Qed.

Ltac kept_steps :=
  repeat first
    [ kept_step
    | rewrite kept_iter by (intros; kept_steps; reflexivity) ].

Lemma kept_setLine l p t : kept (setLine l p t) = kept t.
Proof. unfold setLine. cbn zeta. destruct (echo t); by kept_steps. Qed.

Lemma kept_eraseNPreviousChars n t : kept (eraseNPreviousChars n t) = kept t.
Proof.
  unfold eraseNPreviousChars. cbn zeta.
  destruct (n =? 0); [done|].
  match goal with |- context [if echo ?x then _ else _] => destruct (echo x) end;
    by kept_steps.
Qed.

Lemma kept_addKeyToLine k t : kept (addKeyToLine k t) = kept t.
Proof.
  unfold addKeyToLine. cbn zeta. kept_steps.
  match goal with |- context [if echo ?x then _ else _] => destruct (echo x) end;
    by kept_steps.
Qed.

Lemma kept_resetAutoComplete t : kept (resetAutoComplete t) = kept t.
Proof. unfold resetAutoComplete. by kept_steps. Qed.

Lemma kept_startAutoComplete l p t : kept (startAutoComplete l p t) = kept t.
Proof. unfold startAutoComplete. by kept_steps. Qed.

Ltac kept_all :=
  repeat first
    [ progress kept_steps
    | rewrite kept_setLine
    | rewrite kept_eraseNPreviousChars
    | rewrite kept_addKeyToLine
    | rewrite kept_resetAutoComplete
    | rewrite kept_startAutoComplete ].

Lemma kept_defaultAutoComplete P term l p key :
  kept (fst (defaultAutoComplete P term l p key)) = kept term.
Proof.
  unfold defaultAutoComplete.
  destruct (key =? 9); [|apply kept_resetAutoComplete].
  cbn zeta.
  set (term' := if negb (autoCompleting term) then startAutoComplete l p term else term).
  assert (Hh : kept term' = kept term).
  { unfold term'. destruct (negb (autoCompleting term)); [|done].
    apply kept_startAutoComplete. }
  destruct (sortStrings _) as [|m [|m' ms]]; [done| |].
  - destruct (buildDisplayLine _ _ _ _).
    repeat case_match; cbn [fst]; by rewrite kept_resetAutoComplete.
  - destruct (buildDisplayLine _ _ _ _). cbn [fst]. by rewrite kept_autoCompleteIndex.
Qed.

Lemma kept_handleKey P key t t' res :
  handleKey P key t = Some (t', res) → kept t' = kept t.
Proof.
  unfold handleKey. cbn zeta.
  destruct (pasteActive t && negb (key =? keyEnter)).
  { intros [= <- _]. by kept_all. }
  set (t1 := if resetsAutoComplete key then resetAutoComplete t else t).
  assert (H1 : kept t1 = kept t).
  { unfold t1. destruct (resetsAutoComplete key); [|done].
    apply kept_resetAutoComplete. }
  rewrite <- H1. clearbody t1. clear H1.
  repeat match goal with
         | |- (Some _ = Some _) → _ =>
             intros [= <- _];
             repeat (kept_all; try match goal with
                                   | |- context [if ?c then _ else _] => destruct c
                                   end);
             done
         | |- (None = Some _) → _ => discriminate
         | |- (if ?c then _ else _) = _ → _ => destruct c
         | |- match NthPreviousEntry ?h ?n with _ => _ end = _ → _ =>
             destruct (NthPreviousEntry h n) as [[? [|]]|]
         | |- match AutoCompleteCallback ?t with _ => _ end = _ → _ =>
             destruct (AutoCompleteCallback t) as [[]|]
         | |- context [defaultAutoComplete ?P ?t ?l ?p ?k] =>
             pose proof (kept_defaultAutoComplete P t l p k);
             destruct (defaultAutoComplete P t l p k) as [? [[? ?] ?]];
             cbn [fst] in *
         end.
Qed.

(** The inner loop of [readLine] handles keys and switches the paste
    mode. *)
Lemma kept_processKeys P fuel t rest lip :
  match processKeys P fuel t rest lip with
  | KeysDone t' _ _ _ _ | KeysCtrlD t' => kept t' = kept t
  | KeysPanic => True
  end.
Proof.
  revert t rest lip. induction fuel as [|fuel IH]; intros t rest lip; [done|].
  cbn [processKeys].
  destruct (bytesToKey rest (pasteActive t)) as [key rest'|]; [|done].
  repeat match goal with
         | |- context [if ?c then _ else _] => destruct c eqn:?
         end; try done.
  - specialize (IH (set_pasteActive true t) rest' true).
    destruct (processKeys _ _ _ _ _); by rewrite ?IH, ?kept_pasteActive.
  - specialize (IH (set_pasteActive true t) rest' lip).
    destruct (processKeys _ _ _ _ _); by rewrite ?IH, ?kept_pasteActive.
  - specialize (IH (set_pasteActive false t) rest' lip).
    destruct (processKeys _ _ _ _ _); by rewrite ?IH, ?kept_pasteActive.
  - destruct (handleKey P key t) as [[t' [l ok]]|] eqn:Hk; [|done].
    apply kept_handleKey in Hk. destruct ok; [done|].
    specialize (IH t' rest' false). destruct (processKeys _ _ _ _ _); congruence.
  - destruct (handleKey P key t) as [[t' [l ok]]|] eqn:Hk; [|done].
    apply kept_handleKey in Hk. destruct ok; [done|].
    specialize (IH t' rest' lip). destruct (processKeys _ _ _ _ _); congruence.
Qed.

End Kept.

(** The history after the keys of a read. *)
Lemma processKeys_history P fuel t rest lip :
  match processKeys P fuel t rest lip with
  | KeysDone t' _ _ _ _ | KeysCtrlD t' => history t' = history t
  | KeysPanic => True
  end.
Proof. by apply (kept_processKeys history (history_of)). Qed.

(** The channel after the keys of a read. *)
Lemma processKeys_c_in P fuel t rest lip :
  match processKeys P fuel t rest lip with
  | KeysDone t' _ _ _ _ | KeysCtrlD t' => c_in t' = c_in t
  | KeysPanic => True
  end.
Proof. by apply (kept_processKeys c_in (c_in_of)). Qed.

(** ** The editor: what enters the history *)

Lemma trimLeft_head (rs : list Z) :
  match trimLeft rs with
  | [] => True
  | r :: _ => IsSpace r = false
  end.
Proof.
  induction rs as [|r rs IH]; [done|].
  cbn [trimLeft]. by destruct (IsSpace r) eqn:E.
Qed.

Lemma trimRunes_nonspace (rs : list Z) :
  trimRunes rs ≠ [] → ∃ r, r ∈ trimRunes rs ∧ IsSpace r = false.
Proof.
  unfold trimRunes. intros Hne.
  pose proof (trimLeft_head (rev (trimLeft rs))) as Hh.
  destruct (trimLeft (rev (trimLeft rs))) as [|r l]; [done|].
  exists r. split; [|done].
  apply list_elem_of_In. apply (proj1 (in_rev _ _)). by left.
Qed.

Lemma TrimSpace_hygienic (l : string) :
  String.eqb (TrimSpace l) EmptyString = false → hygienic (TrimSpace l).
Proof.
  intros Hne. apply String.eqb_neq in Hne. split; [done|].
  unfold TrimSpace in *.
  destruct (trimRunes_nonspace (runes_of_string l)) as (r & Hin & Hr).
  { intros Hnil. by rewrite Hnil in Hne. }
  exists (sanitize r). rewrite runes_of_string_of_runes. split.
  - apply list_elem_of_fmap. by exists r.
  - by apply IsSpace_sanitize.
Qed.

Lemma history_clean_eq (t t' : Terminal) :
  history t' = history t → history_clean t → history_clean t'.
Proof. intros H (l & Hl & Hf). exists l. by rewrite H. Qed.

Lemma Add_clean (l : list string) (s : stRingBuffer) (a : string) :
  ring_holds l s → ∃ s', Add s a = Some s' ∧ ring_holds (l ++ [a]) s'.
Proof.
  intros H. destruct l as [|b l'].
  - destruct H as [[_ ->]|[? _]]; [|done]. apply Add_first.
  - by apply Add_next.
Qed.

Lemma readLine_loop_clean P fuel t lip t' l err :
  history_clean t →
  readLine_loop P fuel t lip = Returned t' l err →
  history_clean t'.
Proof.
  revert t lip. induction fuel as [|fuel IH]; intros t lip Hc; [done|].
  cbn [readLine_loop].
  pose proof (processKeys_history P (S (length (remainder t))) t (remainder t) lip) as Hp.
  destruct (processKeys _ _ _ _ _) as [t1 rest lip1 l1 ok| t1 |]; [| |done].
  - cbn zeta.
    set (t2 := flush (set_remainder (take (Z.to_nat inBufSize) rest) t1)).
    assert (H2 : history t2 = history t) by (by rewrite <- Hp).
    destruct ok.
    + destruct (echo t2).
      * destruct (negb (String.eqb (TrimSpace l1) EmptyString)) eqn:Hne.
        -- destruct Hc as (hl & Hring & Hall).
           destruct (Add_clean hl (history t) (TrimSpace l1) Hring) as (h' & Hadd & Hring').
           change (history (set_historyIndex (-1) t2)) with (history t2).
           rewrite H2, Hadd. intros [= <- _ _].
           exists (hl ++ [TrimSpace l1]). split; [exact Hring'|].
           apply Forall_app. split; [done|]. constructor; [|constructor].
           apply TrimSpace_hygienic. by apply negb_true_iff.
        -- intros [= <- _ _]. by apply (history_clean_eq t).
      * intros [= <- _ _]. by apply (history_clean_eq t).
    + unfold chanRead. destruct (c_in t2) as [|[bs|e] evs].
      * intros [= <- _ _]. by apply (history_clean_eq t).
      * apply IH. by apply (history_clean_eq t).
      * intros [= <- _ _]. by apply (history_clean_eq t).
  - intros [= <- _ _]. by apply (history_clean_eq t).
Qed.

Lemma readLine_clean P fuel t t' l err :
  history_clean t → ReadLine P fuel t = Returned t' l err → history_clean t'.
Proof.
  unfold ReadLine, readLine. intros Hc. cbn zeta.
  set (t1 := if (cursorX t =? 0) && (cursorY t =? 0)
             then flush (writeLine (prompt t) t) else t).
  assert (H1 : history t1 = history t).
  { unfold t1. destruct (_ && _); [|done].
    change (history (flush ?x)) with (history x).
    by rewrite (history_of _ _ (display_writeLine (prompt t) t)). }
  apply readLine_loop_clean.
  apply (history_clean_eq t); [|done].
  by destruct (rawOverflow t1).
Qed.

Lemma afterReadLines_clean P t : afterReadLines P t → history_clean t.
Proof.
  induction 1 as [input prompt|tag input prompt|fuel t t' l err _ IH Hr|t t' _ IH He].
  - exists []. split; [by left|constructor].
  - exists []. split; [by left|constructor].
  - by apply (readLine_clean P fuel t t' l err).
  - by apply (history_clean_eq t).
Qed.

(** C8. After any sequence of [ReadLine] calls on a terminal, every entry
    the history gives back is a string that is not empty and holds a
    character that is no white space. *)
Theorem history_hygiene P (t : Terminal) (n : nat) (v : string) :
  afterReadLines P t →
  NthPreviousEntry (history t) (Z.of_nat n) = Some (v, true) →
  hygienic v.
Proof.
  intros Ht Hn. destruct (afterReadLines_clean P t Ht) as (l & Hring & Hall).
  rewrite (NthPreviousEntry_holds l _ n Hring) in Hn.
  destruct (Z.of_nat n <? rb_size (history t)) eqn:E; [|done].
  injection Hn as <-.
  rewrite Forall_forall in Hall. apply Hall.
  apply list_elem_of_In. apply (proj2 (in_rev _ _)). apply nth_In.
  rewrite length_rev.
  destruct Hring as [[-> Hs]|(_ & _ & _ & _ & Hsize & _)].
  - rewrite Hs in E. cbn in E. zbool. lia.
  - rewrite Hsize in E. unfold len in E. zbool. lia.
Qed.

Lemma history_hygiene_witness :
  afterReadLines (ParseLineSpec true) lsTerminal
  ∧ NthPreviousEntry (history lsTerminal) (Z.of_nat 0) = Some ("ls"%string, true)
  ∧ hygienic "ls".
Proof.
  assert (H1 : afterReadLines (ParseLineSpec true) lsTerminal).
  { apply (arl_read _ 3 (NewTerminal lsInput "> ") _ "  ls "%string None);
      [apply arl_new|by vm_compute]. }
  assert (H2 : NthPreviousEntry (history lsTerminal) (Z.of_nat 0)
               = Some ("ls"%string, true)) by (by vm_compute).
  split; [exact H1|]. split; [exact H2|].
  exact (history_hygiene (ParseLineSpec true) lsTerminal 0 "ls" H1 H2).
Defined.

(** ** The editor: the errors of [ReadLine] *)

Lemma readLine_loop_errors P fuel t lip t' l e :
  readLine_loop P fuel t lip = Returned t' l (Some e) →
  e = ErrCtrlD ∨ e = ErrPasteIndicator ∨ e = EOF ∨ RErr e ∈ c_in t.
Proof.
  revert t lip. induction fuel as [|fuel IH]; intros t lip; [done|].
  cbn [readLine_loop].
  pose proof (processKeys_c_in P (S (length (remainder t))) t (remainder t) lip) as Hp.
  destruct (processKeys _ _ _ _ _) as [t1 rest lip1 l1 ok| t1 |]; [| |done].
  - cbn zeta.
    set (t2 := flush (set_remainder (take (Z.to_nat inBufSize) rest) t1)).
    assert (H2 : c_in t2 = c_in t) by (by rewrite <- Hp).
    destruct ok.
    + destruct lip1.
      * repeat case_match; try discriminate; intros [= _ _ <-]; right; by left.
      * repeat case_match; discriminate.
    + unfold chanRead. rewrite H2. destruct (c_in t) as [|[bs|e'] evs].
      * intros [= _ _ <-]. right. right. by left.
      * intros Hr. apply IH in Hr.
        destruct Hr as [?|[?|[?|Hin]]]; [by left|right; by left|right; right; by left|].
        right. right. right. cbn in Hin.
        destruct (drop _ bs); [by right|].
        apply elem_of_cons in Hin as [Hin|Hin]; [discriminate|by right].
      * intros [= _ _ <-]. right. right. right. by left.
  - intros [= _ _ <-]. by left.
Qed.

(** The errors [ReadLine] returns: [ErrCtrlD], [ErrPasteIndicator] (with a
    line), and the error of a read of the channel, [io.EOF] when the
    channel is closed. *)
Lemma ReadLine_errors P fuel t t' l e :
  ReadLine P fuel t = Returned t' l (Some e) →
  e = ErrCtrlD ∨ e = ErrPasteIndicator ∨ e = EOF ∨ RErr e ∈ c_in t.
Proof.
  unfold ReadLine, readLine. cbn zeta. intros Hr.
  apply readLine_loop_errors in Hr.
  destruct Hr as [?|[?|[?|Hin]]]; [by left|right; by left|right; right; by left|].
  right. right. right.
  set (t1 := if (cursorX t =? 0) && (cursorY t =? 0)
             then flush (writeLine (prompt t) t) else t) in *.
  assert (H1 : c_in t1 = c_in t).
  { unfold t1. destruct (_ && _); [|done].
    change (c_in (flush ?x)) with (c_in x).
    by rewrite (c_in_of _ _ (display_writeLine (prompt t) t)). }
  rewrite <- H1. by destruct (rawOverflow t1).
Qed.

(** ** The editor: the length of the line *)

(** C3, on the code. 4097 characters typed are cut at [maxLineLength]; the
    same characters pasted (after the start-of-paste marker) all enter the
    line, which then holds 4097 code points: the branch of [handleKey] for a
    paste adds the key without the test of the length that the branch for a
    typed key makes. *)
Theorem paste_exceeds_maxLineLength (P : string -> Z -> ParsedLine) :
  lineLengthAfter P (replicate 4097 97) = maxLineLength
  ∧ lineLengthAfter P (pasteStart ++ replicate 4097 97) = maxLineLength + 1.
Proof. split; by vm_compute. Qed.

Lemma line_addKeyToLine (key : Z) (t : Terminal) :
  line (addKeyToLine key t)
  = take (Z.to_nat (pos t)) (line t) ++ key :: drop (Z.to_nat (pos t)) (line t).
Proof.
  unfold addKeyToLine. cbn zeta. frame. assigned.
  match goal with |- context [if ?c then _ else _] => destruct c end;
    frame; assigned; reflexivity.
Qed.

(** While a paste is active every key but Enter is added to the line,
    whatever the length of the line. *)
Lemma handleKey_paste_adds P (key : Z) (t : Terminal) :
  pasteActive t = true → key ≠ keyEnter →
  ∃ t', handleKey P key t = Some (t', (EmptyString, false))
        ∧ len (line t') = len (line t) + 1.
Proof.
  intros Hp Hk. unfold handleKey. rewrite Hp.
  replace (key =? keyEnter) with false by (symmetry; zbool; done).
  cbn. eexists. split; [reflexivity|].
  rewrite line_addKeyToLine. change (line (resetAutoComplete t)) with (line t).
  rewrite len_app, len_cons. unfold len.
  rewrite <- (take_drop (Z.to_nat (pos (resetAutoComplete t))) (line t)) at 3.
  rewrite length_app. lia.
Qed.

(** A printable key typed when the line holds [maxLineLength] code points
    is dropped: the editor state is as before (for a terminal with the
    default callback, the state of the completion is reset). *)
Lemma handleKey_typed_at_limit P (key : Z) (t : Terminal) :
  pasteActive t = false → len (line t) = maxLineLength →
  isPrintable key = true → key ≠ keyBackspace →
  handleKey P key t
  = Some (match AutoCompleteCallback t with
          | Some _ => resetAutoComplete t
          | None => t
          end, (EmptyString, false)).
Proof.
  intros Hp Hlen Hprint Hk. unfold handleKey. rewrite Hp. cbn [andb].
  assert (Hrange : 32 <= key ∧ ¬ (55296 <= key <= 56319)).
  { unfold isPrintable in Hprint. zbool. lia. }
  assert (Hnr : resetsAutoComplete key = false).
  { unfold resetsAutoComplete. apply bool_decide_eq_false.
    rewrite !elem_of_cons, elem_of_nil.
    unfold keyBackspace, keyAltLeft, keyAltRight, keyLeft, keyRight, keyHome,
      keyEnd, keyDel, keyUp, keyDown, keyEnter, keyDeleteWord, keyDeleteLine,
      keyCtrlD, keyCtrlU, keyClearScreen in *. lia. }
  rewrite Hnr. cbn zeta.
  unfold keyBackspace, keyAltLeft, keyAltRight, keyLeft, keyRight, keyHome,
    keyEnd, keyDel, keyUp, keyDown, keyEnter, keyDeleteWord, keyDeleteLine,
    keyCtrlD, keyCtrlU, keyClearScreen, keyCtrlC in *.
  repeat match goal with
         | |- context [if key =? ?c then _ else _] =>
             replace (key =? c) with false by (symmetry; zbool; lia)
         end.
  destruct (AutoCompleteCallback t) as [[]|].
  - unfold defaultAutoComplete.
    replace (key =? 9) with false by (symmetry; zbool; lia).
    rewrite Hprint. change (line (resetAutoComplete t)) with (line t).
    rewrite Hlen. reflexivity.
  - rewrite Hprint, Hlen. reflexivity.
Qed.

(** ** The editor: completion *)

(** One Tab with the cursor on the command token, for any parser: the
    candidates are the registered names that start with the token of the
    line the completion started from, sorted; with more than one candidate
    the one at the index is shown in place of the token, and the index moves
    on by one modulo the number of candidates. *)
Lemma tab_on_command P (term : Terminal) (l : string) (p : Z)
    (c f g : Node) (m1 m2 : string) (ms : list string) :
  let term' := if negb (autoCompleting term) then startAutoComplete l p term
               else term in
  Command (P (autoCompletePendng term') (autoCompletePos term')) = Some c →
  Focus (P (autoCompletePendng term') (autoCompletePos term')) = Some f →
  nstart f = 0 →
  Focus (P l p) = Some g → ntype g = TCmd →
  sortStrings (PrefixMatch (functionsAutoComplete term) (nvalue f)) = m1 :: m2 :: ms →
  let shown := nth (Z.to_nat (autoCompleteIndex term')) (m1 :: m2 :: ms) EmptyString in
  defaultAutoComplete P term l p 9
  = (set_autoCompleteIndex
       (Z.rem (autoCompleteIndex term' + 1) (len (m1 :: m2 :: ms))) term',
     ((shown ++ str_drop (nend g) l)%string, slen shown, true)).
Proof.
  cbn zeta. intros Hc Hf Hs Hg Ht Hm.
  unfold defaultAutoComplete. cbn [Z.eqb Pos.eqb]. cbn zeta.
  set (term' := if negb (autoCompleting term) then startAutoComplete l p term
                else term) in *.
  assert (Hfa : functionsAutoComplete term' = functionsAutoComplete term)
    by (unfold term'; by destruct (negb (autoCompleting term))).
  unfold completionMatches. rewrite Hc, Hf, Hs, Hfa. cbn [Z.eqb from_option].
  rewrite Hm. unfold buildDisplayLine. rewrite Hg, Ht. reflexivity.
Qed.

(** C6 fails as stated: after [hel] and one Tab the line is not [help]. If
    the parser focuses the token the cursor stands right behind, the first
    candidate in sorted order, [hello], is shown; if it takes the extent of
    a token as [[start, end)], no token is focused, there is no candidate
    and the line stays [hel]. *)
Lemma first_tab_is_not_help :
  shown (pressKeys (ParseLineSpec true) (hel ++ [9]) (operatorTerminal []))
    = Some ("hello"%string, 1)
  ∧ shown (pressKeys (ParseLineSpec false) (hel ++ [9]) (operatorTerminal []))
    = Some ("hel"%string, 0)
  ∧ (∀ atEnd, fst <$> shown (pressKeys (ParseLineSpec atEnd) (hel ++ [9])
                               (operatorTerminal []))
              ≠ Some "help"%string).
Proof.
  assert (H1 : shown (pressKeys (ParseLineSpec true) (hel ++ [9]) (operatorTerminal []))
               = Some ("hello"%string, 1)) by (by vm_compute).
  assert (H2 : shown (pressKeys (ParseLineSpec false) (hel ++ [9]) (operatorTerminal []))
               = Some ("hel"%string, 0)) by (by vm_compute).
  split; [exact H1|]. split; [exact H2|].
  intros [|]; [rewrite H1|rewrite H2]; discriminate.
Qed.

(** C6, as the code has it, with a parser that focuses the token the
    cursor stands right behind. The candidates for [hel] are [hello] and
    [help], in this order ([sort.Strings] compares byte by byte, and [l]
    is before [p]). The first Tab shows [hello], the second Tab shows
    [help], the line replaced and not extended, the third Tab shows [hello]
    again; the index goes 1, 0, 1. *)
Theorem tab_cycles_sorted_candidates :
  let P := ParseLineSpec true in
  let t := operatorTerminal [] in
  sortStrings (PrefixMatch (functionsAutoComplete t) "hel") = ["hello"; "help"]%string
  ∧ shown (pressKeys P hel t) = Some ("hel"%string, 0)
  ∧ shown (pressKeys P (hel ++ [9]) t) = Some ("hello"%string, 1)
  ∧ shown (pressKeys P (hel ++ [9; 9]) t) = Some ("help"%string, 0)
  ∧ shown (pressKeys P (hel ++ [9; 9; 9]) t) = Some ("hello"%string, 1).
Proof. cbn zeta. repeat split; by vm_compute. Qed.

(** ** The dispatcher *)

(** C1, on the code. A line that arrives in a bracketed paste is returned
    by [ReadLine] with [ErrPasteIndicator]; [Run] treats every error of
    [ReadLine] alike and returns it: the loop ends, the command is not run,
    whatever the parser and the handlers are. *)
Theorem Run_exits_on_pasted_line P handler :
  lineAndError (ReadLine P 5 (operatorTerminal pastedHelp))
    = Some ("help", Some ErrPasteIndicator)
  ∧ runError (Run P handler 3 5 (operatorTerminal pastedHelp))
    = Some ErrPasteIndicator.
Proof. split; by vm_compute. Qed.

(** A round of [Run] whose line is read without error and whose command
    does not end the session goes on with the next [ReadLine]. *)
Lemma Run_continues P handler (rounds fuel : nat) (t t1 t2 : Terminal) (l : string) :
  ReadLine P fuel t = Returned t1 l None →
  dispatch P handler l t1 = inl t2 →
  Run P handler (S rounds) fuel t = Run P handler rounds fuel t2.
Proof. intros Hr Hd. cbn [Run]. by rewrite Hr, Hd. Qed.

(** A handler that returns an error other than [io.EOF]: the error is
    printed and the round ends without a return. *)
Lemma dispatch_prints_handler_error P handler (l : string) (t t' : Terminal)
    (cmd : Node) (f : CommandImpl) (err : error) :
  Command (P l (pos t)) = Some cmd →
  functions t !! nvalue cmd = Some f →
  Flags (P l (pos t)) = ∅ →
  handler (nvalue cmd) (P l (pos t)) t = (t', Some err) →
  err ≠ EOF →
  dispatch P handler l t = inl (Fprint (errorText err ++ newline) t').
Proof.
  intros Hc Hf Hfl Hh He. unfold dispatch. rewrite Hc, Hf, Hfl, Hh.
  rewrite !lookup_empty. cbn [bool_decide orb].
  rewrite !bool_decide_eq_false_2 by (by intros [? ?]). cbn [orb].
  rewrite dom_empty_L, elements_empty. cbn.
  by destruct (decide (err = EOF)).
Qed.

(** A handler that returns [io.EOF] ends the loop. *)
Lemma dispatch_returns_on_EOF P handler (l : string) (t t' : Terminal)
    (cmd : Node) (f : CommandImpl) :
  Command (P l (pos t)) = Some cmd →
  functions t !! nvalue cmd = Some f →
  Flags (P l (pos t)) = ∅ →
  handler (nvalue cmd) (P l (pos t)) t = (t', Some EOF) →
  dispatch P handler l t = inr (t', EOF).
Proof.
  intros Hc Hf Hfl Hh. unfold dispatch. rewrite Hc, Hf, Hfl, Hh.
  rewrite !bool_decide_eq_false_2 by (rewrite lookup_empty; by intros [? ?]).
  cbn [orb]. rewrite dom_empty_L, elements_empty. cbn.
  by destruct (decide (EOF = EOF)).
Qed.

(** [dispatch] returns with no error but [io.EOF]. *)
Lemma dispatch_returns_EOF_only P handler (l : string) (t t' : Terminal) (e : error) :
  dispatch P handler l t = inr (t', e) → e = EOF.
Proof.
  unfold dispatch. repeat case_match; try discriminate.
  intros [= _ <-]. done.
Qed.

(** [Run] returns an error of [ReadLine] or the [io.EOF] of a handler, and
    nothing else. *)
Lemma Run_returns P handler (rounds fuel : nat) (t t' : Terminal) (e : error) :
  Run P handler rounds fuel t = RunReturned t' e →
  e = EOF ∨ ∃ t0 l, ReadLine P fuel t0 = Returned t' l (Some e).
Proof.
  revert t. induction rounds as [|rounds IH]; intros t; [done|].
  cbn [Run].
  destruct (ReadLine P fuel t) as [t1 l [err|]| |] eqn:Hr; try done.
  - intros [= <- <-]. right. by exists t, l.
  - destruct (dispatch P handler l t1) as [t2|[t2 e2]] eqn:Hd.
    + apply IH.
    + intros [= <- <-]. left. by apply dispatch_returns_EOF_only in Hd.
Qed.
